(** * Food detection pipeline of [streamlit_andromeda.py]

    A shallow embedding of the region-proposal-and-classify pipeline, the
    overlay renderer, the cached model loader and the two detection pages,
    with theorems about them.

    OpenCV, Keras, PIL and Streamlit are outside the repository: their
    functions are fields of a backend record ([cv2_backend]) or of the model
    object ([Model]), and every theorem holds for all backends and models.
    Python floats are IEEE 754 binary64 numbers ([spec_float]); a float32
    value is represented by the binary64 number it is equal to. *)

From Stdlib Require Import ZArith String Ascii List Lia Bool.
From Stdlib Require Import Floats.SpecFloat.
From stdpp Require Import base option list strings gmap fin_maps pretty.

Local Open Scope Z_scope.

(** ** Python outcomes: a call returns a value or raises *)

Record exn := Exn { exn_type : string; exn_msg : string }.

Inductive outcome (A : Type) : Type :=
| Returns (a : A)
| Raises (e : exn).
Arguments Returns {A} a.
Arguments Raises {A} e.

Definition obind {A B} (o : outcome A) (k : A -> outcome B) : outcome B :=
  match o with
  | Returns a => k a
  | Raises e => Raises e
  end.

(** ** Floats *)

Module Float.

(** The value of a finite float [S754_finite s m e] is [(-1)^s * m * 2^e].
    Two finite values are compared exactly, after aligning exponents, so
    the order does not depend on how a value is normalised. *)
Definition signed (s : bool) (m : positive) : Z :=
  if s then Z.neg m else Z.pos m.

Definition align (m e e' : Z) : Z := m * 2 ^ (e - e').

Definition cmp_finite (m1 e1 m2 e2 : Z) : comparison :=
  let e := Z.min e1 e2 in
  Z.compare (align m1 e1 e) (align m2 e2 e).

Definition compare (x y : spec_float) : option comparison :=
  match x, y with
  | S754_nan, _ | _, S754_nan => None
  | S754_infinity s1, S754_infinity s2 =>
      Some (match s1, s2 with
            | true, true | false, false => Eq
            | true, false => Lt
            | false, true => Gt
            end)
  | S754_infinity s, _ => Some (if s then Lt else Gt)
  | _, S754_infinity s => Some (if s then Gt else Lt)
  | S754_zero _, S754_zero _ => Some Eq
  | S754_zero _, S754_finite s _ _ => Some (if s then Gt else Lt)
  | S754_finite s _ _, S754_zero _ => Some (if s then Lt else Gt)
  | S754_finite s1 m1 e1, S754_finite s2 m2 e2 =>
      Some (cmp_finite (signed s1 m1) e1 (signed s2 m2) e2)
  end.

(** [x >= y], [x <= y]: false as soon as one side is NaN. *)
Definition ge (x y : spec_float) : bool :=
  match compare x y with
  | Some (Gt | Eq) => true
  | _ => false
  end.

Definition le (x y : spec_float) : bool :=
  match compare x y with
  | Some (Lt | Eq) => true
  | _ => false
  end.

Definition is_nan (x : spec_float) : bool :=
  match x with S754_nan => true | _ => false end.

Definition of_Z32 (v : Z) : spec_float := binary_normalize 24 128 v 0 false.
Definition of_Z64 (v : Z) : spec_float := binary_normalize 53 1024 v 0 false.
Definition div32 : spec_float -> spec_float -> spec_float := SFdiv 24 128.
Definition div64 : spec_float -> spec_float -> spec_float := SFdiv 53 1024.

(** Decimal literals of the source, as the binary64 number nearest to them. *)
Definition lit (num den : Z) : spec_float := div64 (of_Z64 num) (of_Z64 den).

Definition zero : spec_float := S754_zero false.
Definition one : spec_float := of_Z64 1.
Definition half : spec_float := lit 5 10.

(** ** [format(x, ".2f")]

    The decimal nearest to the exact value with two digits after the
    point, ties to the even neighbour; [hundredths] is that decimal times
    one hundred. *)
Definition round_half_even (num den : Z) : Z :=
  let q := num / den in
  let r := num mod den in
  match Z.compare (2 * r) den with
  | Lt => q
  | Gt => q + 1
  | Eq => if Z.even q then q else q + 1
  end.

Definition hundredths (m : positive) (e : Z) : Z :=
  if 0 <=? e then 100 * Z.pos m * 2 ^ e
  else round_half_even (100 * Z.pos m) (2 ^ (- e)).

Definition two_digits (n : Z) : string :=
  pretty (n / 10) +:+ pretty (n mod 10).

Definition fixed2 (n : Z) : string :=
  pretty (n / 100) +:+ "." +:+ two_digits (n mod 100).

Definition format_2f (x : spec_float) : string :=
  match x with
  | S754_nan => "nan"
  | S754_infinity s => if s then "-inf" else "inf"
  | S754_zero s => if s then "-0.00" else "0.00"
  | S754_finite s m e =>
      (if s then "-" else "") +:+ fixed2 (hundredths m e)
  end.

End Float.

(** ** numpy *)

Module np.

(** [np.maximum(a, b)]: [a] when [a >= b] or [a] is NaN, else [b]; a NaN
    on either side is propagated. *)
Definition maximum (a b : spec_float) : spec_float :=
  if Float.ge a b || Float.is_nan a then a else b.

(** [np.max] of a one-dimensional array; an empty array has no maximum. *)
Definition max (a : list spec_float) : outcome spec_float :=
  match a with
  | [] => Raises (Exn "ValueError"
            "zero-size array to reduction operation maximum which has no identity")
  | x :: rest => Returns (fold_left maximum rest x)
  end.

(** [np.argmax]: index of the first maximal element; the first NaN wins. *)
Fixpoint argmax_from (rest : list spec_float) (i : Z) (mp : spec_float)
    (max_ind : Z) : Z :=
  match rest with
  | [] => max_ind
  | x :: rest' =>
      if Float.le x mp then argmax_from rest' (i + 1) mp max_ind
      else if Float.is_nan x then i
      else argmax_from rest' (i + 1) x i
  end.

Definition argmax (a : list spec_float) : outcome Z :=
  match a with
  | [] => Raises (Exn "ValueError" "attempt to get argmax of an empty sequence")
  | x :: rest =>
      Returns (if Float.is_nan x then 0 else argmax_from rest 1 x 0)
  end.

(** Basic slicing [a[lo:hi]] with Python's treatment of negative and
    out-of-range bounds. *)
Definition clip_index (n i : Z) : Z :=
  if i <? 0 then Z.max 0 (i + n) else Z.min i n.

Definition slice {A} (lo hi : Z) (a : list A) : list A :=
  let n := Z.of_nat (length a) in
  let lo' := clip_index n lo in
  let hi' := clip_index n hi in
  take (Z.to_nat (hi' - lo')) (drop (Z.to_nat lo') a).

End np.

(** Python indexing [l[i]]: a negative index counts from the end. *)
Definition py_index {A} (l : list A) (i : Z) : outcome A :=
  let j := if i <? 0 then i + Z.of_nat (length l) else i in
  match (if 0 <=? j then l !! Z.to_nat j else None) with
  | Some a => Returns a
  | None => Raises (Exn "IndexError" "index out of range")
  end.

(** ** Images, rectangles, detections *)

(** A frame is a height x width x channels array of integers; a grayscale
    image has no channel axis; a tensor is a batch of float images. *)
Definition Pixel := list Z.
Definition Image := list (list Pixel).
Definition Gray := list (list Z).
Definition Tensor := list (list (list (list spec_float))).

Definition Point := (Z * Z)%type.
Definition Contour := list Point.
Definition Rect := (Z * Z * Z * Z)%type.
Definition Color := (Z * Z * Z)%type.

Record Detection := mkDetection {
  det_box : Rect;
  det_confidence : spec_float;
  det_class : string
}.

(** Storage locations of the array objects that are shared between the
    shell, the pipeline and the renderer. *)
Definition loc := positive.

(** ** OpenCV and PIL, as used by the program *)

Module cv2.
Definition COLOR_BGR2GRAY : Z := 6.
Definition COLOR_BGR2RGB : Z := 4.
Definition COLOR_RGB2BGR : Z := 4.
Definition THRESH_BINARY : Z := 0.
Definition THRESH_OTSU : Z := 8.
Definition RETR_EXTERNAL : Z := 0.
Definition CHAIN_APPROX_SIMPLE : Z := 2.
Definition FONT_HERSHEY_SIMPLEX : Z := 0.
End cv2.

Record cv2_backend := {
  cvtColor_gray : Image -> Z -> outcome Gray;
  cvtColor : Image -> Z -> outcome Image;
  GaussianBlur : Gray -> Z * Z -> Z -> outcome Gray;
  threshold : Gray -> Z -> Z -> Z -> outcome (spec_float * Gray);
  findContours : Gray -> Z -> Z -> outcome (list Contour * list (list Z));
  boundingRect : Contour -> Rect;
  resize : Image -> Z * Z -> outcome Image;
  (* drawing primitives: the pixels of the target after the call *)
  rectangle : Image -> Point -> Point -> Color -> Z -> Image;
  getTextSize : string -> Z -> spec_float -> Z -> (Z * Z) * Z;
  putText : Image -> string -> Point -> Z -> spec_float -> Color -> Z -> Image;
  (* [np.array(Image.open(f))]: the decoded upload *)
  Image_open : string -> outcome Image
}.

(** ** Observable effects *)

Inductive Event :=
| EvStTitle (text : string)
| EvStHeader (text : string)
| EvStMarkdown                   (* the "About the System" text *)
| EvStError (text : string)
| EvStSubheader (text : string)
| EvStWrite (text : string)
| EvStImage (img : Image) (caption : string)
| EvSleep
| EvDetect                       (* a call of [detect_objects] *)
| EvRectangle (target : loc) (pt1 pt2 : Point) (color : Color) (thickness : Z)
| EvPutText (target : loc) (text : string) (org : Point) (font : Z)
    (scale : spec_float) (color : Color) (thickness : Z)
| EvCameraOpen
| EvCameraRead (ok : bool)
| EvCameraRelease.

(** ** Constants of the program *)

Definition DETECTION_COLORS : gmap string Color :=
  <["karbohidrat" := (255, 0, 0)]>
  (<["protein" := (0, 255, 0)]>
  (<["buah" := (0, 0, 255)]>
  (<["sayur" := (255, 255, 0)]>
  (<["minuman" := (255, 0, 255)]> ∅)))).

Definition CLASS_NAMES : list string :=
  ["karbohidrat"; "protein"; "buah"; "sayur"; "minuman"].

Definition CONFIDENCE_THRESHOLD : spec_float := Float.lit 5 10.

(** ** The program *)

Section Program.

(** [CS] is the internal state of the classifier (a stateless model has
    [CS = unit]); [cv] is the OpenCV backend. *)
Variable CS : Type.
Variable cv : cv2_backend.

(** A loaded Keras model: [predict] maps a batch to one score vector per
    example, and may read and update the classifier state. *)
Record Model := {
  predict : CS -> Tensor -> outcome (list (list spec_float)) * CS
}.

Record World := mkWorld {
  w_classifier : CS;
  w_store : gmap loc Image;           (* array objects *)
  w_events : list Event;              (* effects so far, oldest first *)
  w_cache : option (option Model);    (* [st.cache_resource] entry *)
  w_model_file : outcome Model;       (* what [load_model] finds on disk *)
  w_feed : list Image;                (* frames the camera delivers before
                                         its first failing read *)
  w_camera_held : bool                (* device handle open *)
}.

Definition M (A : Type) : Type := World -> outcome A * World.

Definition ret {A} (a : A) : M A := fun w => (Returns a, w).

Definition bind {A B} (c : M A) (k : A -> M B) : M B :=
  fun w =>
    match c w with
    | (Returns a, w') => k a w'
    | (Raises e, w') => (Raises e, w')
    end.

Definition lift {A} (o : outcome A) : M A := fun w => (o, w).

(** [try: c except Exception as e: h e] *)
Definition try_except {A} (c : M A) (h : exn -> M A) : M A :=
  fun w =>
    match c w with
    | (Returns a, w') => (Returns a, w')
    | (Raises e, w') => h e w'
    end.

Definition emit (ev : Event) : M unit :=
  fun w =>
    (Returns tt,
     mkWorld (w_classifier w) (w_store w) (w_events w ++ [ev]) (w_cache w)
       (w_model_file w) (w_feed w) (w_camera_held w)).

Definition set_store (st : gmap loc Image) : M unit :=
  fun w =>
    (Returns tt,
     mkWorld (w_classifier w) st (w_events w) (w_cache w)
       (w_model_file w) (w_feed w) (w_camera_held w)).

Definition get_store : M (gmap loc Image) := fun w => (Returns (w_store w), w).

Local Notation "x <- c ;; k" := (bind c (fun x => k))
  (at level 100, c at next level, right associativity).
Local Notation "c ;;; k" := (bind c (fun _ => k))
  (at level 100, right associativity).

(** *** Array objects *)

(** A new array object holding [a]. *)
Definition new_array (a : Image) : M loc :=
  st <- get_store ;;
  let l := fresh (dom st) in
  set_store (<[l := a]> st) ;;;
  ret l.

Definition read_array (l : loc) : M Image :=
  st <- get_store ;;
  ret (st !!! l).

(** [image.copy()] *)
Definition ndarray_copy (l : loc) : M loc :=
  a <- read_array l ;;
  new_array a.

(** In-place update of the array at [l]. *)
Definition update_array (l : loc) (f : Image -> Image) : M unit :=
  st <- get_store ;;
  set_store (alter f l st).

(** *** [model.predict] *)
Definition model_predict (model : Model) (x : Tensor)
    : M (list (list spec_float)) :=
  fun w =>
    let '(r, s') := predict model (w_classifier w) x in
    (r, mkWorld s' (w_store w) (w_events w) (w_cache w)
          (w_model_file w) (w_feed w) (w_camera_held w)).

(** *** [preprocess_frame] *)
Definition normalize (v : Z) : spec_float :=
  Float.div32 (Float.of_Z32 v) (Float.of_Z32 255).

Definition preprocess_frame (frame : Image) (target_size : Z * Z)
    : outcome Tensor :=
  obind (resize cv frame target_size) (fun processed_frame =>
  let processed_frame := map (map (map normalize)) processed_frame in
  let processed_frame := [processed_frame] in
  Returns processed_frame).

Definition default_target_size : Z * Z := (224, 224).

(** *** [get_region_proposals] *)
Fixpoint collect_regions (contours : list Contour) (regions : list Rect)
    : list Rect :=
  match contours with
  | [] => regions
  | contour :: rest =>
      let '(x, y, w, h) := boundingRect cv contour in
      if (50 <? w) && (50 <? h)
      then collect_regions rest (regions ++ [(x, y, w, h)])
      else collect_regions rest regions
  end.

Definition get_region_proposals (image : Image) : outcome (list Rect) :=
  obind (cvtColor_gray cv image cv2.COLOR_BGR2GRAY) (fun gray =>
  obind (GaussianBlur cv gray (5, 5) 0) (fun blur =>
  obind (threshold cv blur 0 255 (cv2.THRESH_BINARY + cv2.THRESH_OTSU))
    (fun '(_, thresh) =>
  obind (findContours cv thresh cv2.RETR_EXTERNAL cv2.CHAIN_APPROX_SIMPLE)
    (fun '(contours, _) =>
  Returns (collect_regions contours []))))).

(** *** [detect_objects] *)

(** The source also reads [height, width = image.shape[:2]] and never uses
    them; on a three-axis array that assignment has no effect and is left
    out. *)

(** [image[y:y+h, x:x+w]] *)
Definition crop (image : Image) (r : Rect) : Image :=
  let '(x, y, w, h) := r in
  map (np.slice x (x + w)) (np.slice y (y + h) image).

Fixpoint detect_regions (image : Image) (model : Model)
    (regions : list Rect) (detections : list Detection)
    : M (list Detection) :=
  match regions with
  | [] => ret detections
  | (x, y, w, h) :: rest =>
      let region := crop image (x, y, w, h) in
      processed_region <- lift (preprocess_frame region default_target_size) ;;
      batch <- model_predict model processed_region ;;
      predictions <- lift (py_index batch 0) ;;
      confidence <- lift (np.max predictions) ;;
      if Float.ge confidence CONFIDENCE_THRESHOLD then
        class_idx <- lift (np.argmax predictions) ;;
        class_name <- lift (py_index CLASS_NAMES class_idx) ;;
        detect_regions image model rest
          (detections ++ [mkDetection (x, y, w, h) confidence class_name])
      else
        detect_regions image model rest detections
  end.

Definition detect_objects (image : Image) (model : Model)
    : M (list Detection) :=
  emit EvDetect ;;;
  regions <- lift (get_region_proposals image) ;;
  detect_regions image model regions [].

(** *** [draw_detection_boxes] *)

Fixpoint for_each {A} (l : list A) (body : A -> M unit) : M unit :=
  match l with
  | [] => ret tt
  | a :: rest => body a ;;; for_each rest body
  end.

(** The drawing calls write into the array object they are given. *)
Definition cv2_rectangle (img : loc) (pt1 pt2 : Point) (color : Color)
    (thickness : Z) : M unit :=
  emit (EvRectangle img pt1 pt2 color thickness) ;;;
  update_array img (fun a => rectangle cv a pt1 pt2 color thickness).

Definition cv2_putText (img : loc) (text : string) (org : Point) (font : Z)
    (scale : spec_float) (color : Color) (thickness : Z) : M unit :=
  emit (EvPutText img text org font scale color thickness) ;;;
  update_array img (fun a => putText cv a text org font scale color thickness).

Definition DEFAULT_COLOR : Color := (0, 255, 0).
Definition WHITE : Color := (255, 255, 255).
Definition FONT_SCALE : spec_float := Float.lit 5 10.

Definition make_label (class_name : string) (confidence : spec_float)
    : string :=
  class_name +:+ ": " +:+ Float.format_2f confidence.

Definition draw_detection (image_with_boxes : loc) (det : Detection)
    : M unit :=
  let '(x, y, w, h) := det_box det in
  let class_name := det_class det in
  let confidence := det_confidence det in
  let color := default DEFAULT_COLOR (DETECTION_COLORS !! class_name) in
  cv2_rectangle image_with_boxes (x, y) (x + w, y + h) color 2 ;;;
  let label := make_label class_name confidence in
  let '((label_w, label_h), baseline) :=
    getTextSize cv label cv2.FONT_HERSHEY_SIMPLEX FONT_SCALE 2 in
  cv2_rectangle image_with_boxes (x, y - label_h - 10) (x + label_w, y)
    color (-1) ;;;
  cv2_putText image_with_boxes label (x, y - 5) cv2.FONT_HERSHEY_SIMPLEX
    FONT_SCALE WHITE 2.

Definition draw_detection_boxes (image : loc) (detections : list Detection)
    : M loc :=
  image_with_boxes <- ndarray_copy image ;;
  for_each detections (draw_detection image_with_boxes) ;;;
  ret image_with_boxes.

(** *** [load_detection_model] under [st.cache_resource] *)

Definition set_cache (c : option (option Model)) : M unit :=
  fun w =>
    (Returns tt,
     mkWorld (w_classifier w) (w_store w) (w_events w) c
       (w_model_file w) (w_feed w) (w_camera_held w)).

(** [load_model('./model/model.h5')] *)
Definition load_model : M Model := fun w => (w_model_file w, w).

Definition load_detection_model_body : M (option Model) :=
  try_except
    (model <- load_model ;; ret (Some model))
    (fun e =>
       emit (EvStError ("Error loading model: " +:+ exn_msg e)) ;;;
       ret None).

(** The decorator: the first value the function returns is kept, [None]
    included, and later calls return it without running the body.  A call
    that raises stores nothing. *)
Definition cache_resource (body : M (option Model)) : M (option Model) :=
  fun w =>
    match w_cache w with
    | Some v => (Returns v, w)
    | None => (v <- body ;; set_cache (Some v) ;;; ret v) w
    end.

Definition load_detection_model : M (option Model) :=
  cache_resource load_detection_model_body.

(** *** Camera device *)

Definition camera_open : M unit :=
  fun w =>
    (Returns tt,
     mkWorld (w_classifier w) (w_store w) (w_events w ++ [EvCameraOpen])
       (w_cache w) (w_model_file w) (w_feed w) true).

Definition camera_read : M (bool * option Image) :=
  fun w =>
    match w_feed w with
    | frame :: rest =>
        (Returns (true, Some frame),
         mkWorld (w_classifier w) (w_store w)
           (w_events w ++ [EvCameraRead true]) (w_cache w)
           (w_model_file w) rest (w_camera_held w))
    | [] =>
        (Returns (false, None),
         mkWorld (w_classifier w) (w_store w)
           (w_events w ++ [EvCameraRead false]) (w_cache w)
           (w_model_file w) [] (w_camera_held w))
    end.

Definition camera_release : M unit :=
  fun w =>
    (Returns tt,
     mkWorld (w_classifier w) (w_store w) (w_events w ++ [EvCameraRelease])
       (w_cache w) (w_model_file w) (w_feed w) false).

(** *** Pages *)

(** What the widgets return in one run of the script. *)
Record Inputs := {
  selected : string;                 (* sidebar menu *)
  uploaded_file : option string;     (* [st.file_uploader] *)
  detect_clicked : bool;             (* [st.button("Detect Food Items")] *)
  start_camera : bool                (* [st.checkbox('Start Camera')] *)
}.

Definition MODEL_FAILED : string :=
  "Failed to load model. Please check the model file.".

Definition page_home : M unit :=
  emit (EvStTitle "Andromeda") ;;;
  emit (EvStHeader
    "Automated Nutritional Analysis: Object Detection for Balanced Meal Evaluation According to 4 Sehat 5 Sempurna") ;;;
  emit EvStMarkdown.

Definition detail_line (det : Detection) : string :=
  "- Found " +:+ det_class det +:+ " with "
    +:+ Float.format_2f (det_confidence det) +:+ " confidence".

Definition page_upload (inp : Inputs) : M unit :=
  emit (EvStTitle "Food Image Detection") ;;;
  model <- load_detection_model ;;
  match model with
  | None => emit (EvStError MODEL_FAILED)
  | Some model =>
      match uploaded_file inp with
      | None => ret tt
      | Some file =>
          image_np <- lift (Image_open cv file) ;;
          image_px <- lift (cvtColor cv image_np cv2.COLOR_RGB2BGR) ;;
          image_cv <- new_array image_px ;;
          emit (EvStImage image_np "Original Image") ;;;
          if detect_clicked inp then
            px <- read_array image_cv ;;
            detections <- detect_objects px model ;;
            result_image <- draw_detection_boxes image_cv detections ;;
            result_px <- read_array result_image ;;
            result_rgb <- lift (cvtColor cv result_px cv2.COLOR_BGR2RGB) ;;
            emit (EvStImage result_rgb "Detection Result") ;;;
            emit (EvStSubheader "Detection Details:") ;;;
            for_each detections (fun det => emit (EvStWrite (detail_line det)))
          else ret tt
      end
  end.

(** The body of [while run:] when [run] is true; the loop is left only by
    the [break] after a failed read.  Each round takes one frame from the
    feed, so [fuel] above the length of the feed is never used up. *)
Fixpoint capture_loop (fuel : nat) (model : Model) : M unit :=
  match fuel with
  | O => ret tt
  | S fuel' =>
      r <- camera_read ;;
      match r with
      | (true, Some frame_px) =>
          frame <- new_array frame_px ;;
          px <- read_array frame ;;
          detections <- detect_objects px model ;;
          frame_with_detections <- draw_detection_boxes frame detections ;;
          out_px <- read_array frame_with_detections ;;
          frame_rgb <- lift (cvtColor cv out_px cv2.COLOR_BGR2RGB) ;;
          emit (EvStImage frame_rgb "") ;;;
          emit EvSleep ;;;
          capture_loop fuel' model
      | _ => emit (EvStError "Failed to access camera")
      end
  end.

Definition page_live (inp : Inputs) : M unit :=
  emit (EvStTitle "Live Camera Detection") ;;;
  model <- load_detection_model ;;
  match model with
  | None => emit (EvStError MODEL_FAILED)
  | Some model =>
      let run := start_camera inp in
      emit (EvStImage [] "") ;;;
      camera_open ;;;
      (if run
       then fun w => capture_loop (S (length (w_feed w))) model w
       else ret tt) ;;;
      camera_release
  end.

Definition script (inp : Inputs) : M unit :=
  if String.eqb (selected inp) "Home" then page_home
  else if String.eqb (selected inp) "Upload Image" then page_upload inp
  else if String.eqb (selected inp) "Live Camera" then page_live inp
  else ret tt.

(** A session is a sequence of runs of the script; before each run the
    surroundings may have changed the model file and the camera feed. *)
Definition rerun (w : World) (step : Inputs * outcome Model * list Image)
    : World :=
  let '(inp, file, feed) := step in
  snd (script inp
         (mkWorld (w_classifier w) (w_store w) (w_events w) (w_cache w)
            file feed (w_camera_held w))).

Definition session (steps : list (Inputs * outcome Model * list Image))
    (w : World) : World :=
  fold_left rerun steps w.

End Program.

Arguments predict {CS} _ _ _.
Arguments Build_Model {CS} _.
Arguments ret {CS A} a w.
Arguments bind {CS A B} c k w.
Arguments lift {CS A} o w.
Arguments emit {CS} ev w.
Arguments new_array {CS} a w.
Arguments read_array {CS} l w.
Arguments ndarray_copy {CS} l w.
Arguments update_array {CS} l f w.
Arguments model_predict {CS} model x w.
Arguments detect_regions {CS} cv image model regions detections w.
Arguments detect_objects {CS} cv image model w.
Arguments for_each {CS A} l body w.
Arguments cv2_rectangle {CS} cv img pt1 pt2 color thickness w.
Arguments cv2_putText {CS} cv img text org font scale color thickness w.
Arguments draw_detection {CS} cv image_with_boxes det w.
Arguments draw_detection_boxes {CS} cv image detections w.
Arguments load_model {CS} w.
Arguments load_detection_model_body {CS} w.
Arguments cache_resource {CS} body w.
Arguments load_detection_model {CS} w.
Arguments camera_open {CS} w.
Arguments camera_read {CS} w.
Arguments camera_release {CS} w.
Arguments page_home {CS} w.
Arguments page_upload {CS} cv inp w.
Arguments capture_loop {CS} cv fuel model w.
Arguments page_live {CS} cv inp w.
Arguments script {CS} cv inp w.
Arguments rerun {CS} cv w step.
Arguments session {CS} cv steps w.
Arguments mkWorld {CS} _ _ _ _ _ _ _.
Arguments w_classifier {CS} _.
Arguments w_store {CS} _.
Arguments w_events {CS} _.
Arguments w_cache {CS} _.
Arguments w_model_file {CS} _.
Arguments w_feed {CS} _.
Arguments w_camera_held {CS} _.

(** ** Well-formed frames and tensors *)

Definition uint8 (v : Z) : Prop := 0 <= v <= 255.

Definition bgr_pixel (px : Pixel) : Prop := length px = 3%nat /\ Forall uint8 px.

(** A non-empty height x width x 3 array of 8-bit intensities. *)
Definition is_frame (img : Image) : Prop :=
  img <> [] /\
  (exists w, (0 < w)%nat /\ Forall (fun row => length row = w) img) /\
  Forall (Forall bgr_pixel) img.

Definition has_shape (n h w c : nat) (t : Tensor) : Prop :=
  length t = n /\
  Forall (fun img => length img = h /\
    Forall (fun row => length row = w /\
      Forall (fun px => length px = c) row) img) t.

Definition in_unit_interval (v : spec_float) : bool :=
  Float.le Float.zero v && Float.le v Float.one.

Definition tensor_values (t : Tensor) : list spec_float :=
  concat (concat (concat t)).

(** What the program relies on from [cv2.resize]: a frame resized to
    [(w, h)] is an [h] x [w] x 3 array of 8-bit intensities. *)
Definition resize_contract (cv : cv2_backend) (size : Z * Z) : Prop :=
  forall img, is_frame img ->
    exists out, resize cv img size = Returns out /\
      length out = Z.to_nat (snd size) /\
      Forall (fun row => length row = Z.to_nat (fst size)) out /\
      Forall (Forall bgr_pixel) out.

(** A classifier that answers every batch with at least one vector of five
    scores. *)
Definition five_scores {CS} (model : Model CS) : Prop :=
  forall s t, exists batch scores s',
    predict model s t = (Returns batch, s') /\
    batch !! 0%nat = Some scores /\ length scores = 5%nat.

(** A classifier whose answer does not depend on its internal state. *)
Definition deterministic {CS} (model : Model CS) : Prop :=
  forall s s' t, fst (predict model s t) = fst (predict model s' t).

(** ** A concrete backend, model and frames for closed instances *)

Module Stub.

Definition bounding_rect (c : Contour) : Rect :=
  match c with
  | [] => (0, 0, 0, 0)
  | (x0, y0) :: rest =>
      let xs := map fst rest in
      let ys := map snd rest in
      let x1 := fold_left Z.min xs x0 in
      let x2 := fold_left Z.max xs x0 in
      let y1 := fold_left Z.min ys y0 in
      let y2 := fold_left Z.max ys y0 in
      (x1, y1, x2 - x1 + 1, y2 - y1 + 1)
  end.

(** Nearest-neighbour resampling. *)
Definition nearest (img : Image) (size : Z * Z) : outcome Image :=
  let w := Z.to_nat (fst size) in
  let h := Z.to_nat (snd size) in
  let H := length img in
  let W := length (hd [] img) in
  if ((H =? 0) || (W =? 0))%nat
  then Raises (Exn "cv2.error" "(-215:Assertion failed) !ssize.empty() in function 'resize'")
  else Returns
    (map (fun i =>
            let row := nth (i * H / h) img [] in
            map (fun j => nth (j * W / w) row []) (seq 0 w))
         (seq 0 h)).

(** The stub drawing primitives only mark the pixel at their anchor point. *)
Definition mark (img : Image) (pt : Point) (color : Color) : Image :=
  let '(x, y) := pt in
  let '(b, g, r) := color in
  if (0 <=? x) && (0 <=? y)
  then alter (fun row => <[Z.to_nat x := [b; g; r]]> row) (Z.to_nat y) img
  else img.

Definition square (x y side : Z) : Contour :=
  [(x, y); (x, y + side - 1); (x + side - 1, y + side - 1); (x + side - 1, y)].

(** The segmentation is canned: whatever the frame, it finds a 60 x 60
    square, a 10 x 10 square and a 60 x 10 strip. *)
Definition contours : list Contour :=
  [square 0 0 60; square 5 5 10;
   [(0, 0); (0, 9); (59, 9); (59, 0)]].

Definition cv : cv2_backend := {|
  cvtColor_gray img _ := Returns (map (map (fun px => hd 0 px)) img);
  cvtColor img _ := Returns (map (map (@rev Z)) img);
  GaussianBlur g _ _ := Returns g;
  threshold g _ _ _ := Returns (Float.zero, g);
  findContours _ _ _ := Returns (contours, []);
  boundingRect := bounding_rect;
  resize := nearest;
  rectangle img pt1 _ color _ := mark img pt1 color;
  getTextSize text _ _ _ := ((10 * Z.of_nat (String.length text), 11), 5);
  putText img _ org _ _ color _ := mark img org color;
  Image_open _ := Returns [[[0; 0; 0]]]
|}.

Definition frame : Image := repeat (repeat [0; 128; 255] 64) 64.
Definition tiny : Image := [[[0; 128; 255]; [7; 7; 7]]].

(** A classifier that counts its calls and always answers with the same
    five scores. *)
Definition scores : list spec_float :=
  [Float.lit 9 10; Float.lit 2 100; Float.lit 2 100; Float.lit 2 100;
   Float.lit 4 100].

Definition model : Model nat :=
  {| predict s _ := (Returns [scores], S s) |}.

Definition uniform : Model nat :=
  {| predict s _ := (Returns [repeat (Float.lit 2 10) 5], S s) |}.

Definition world : World nat := {|
  w_classifier := 0%nat;
  w_store := ∅;
  w_events := [];
  w_cache := None;
  w_model_file := Returns model;
  w_feed := [];
  w_camera_held := false
|}.

End Stub.

(** The value of [x] is at least one half: [x] is plus infinity, or
    [m * 2^e] with [2^(-e-1) <= m]. *)
Definition at_least_half (x : spec_float) : Prop :=
  match x with
  | S754_infinity false => True
  | S754_finite false m e => 2 ^ (- e - 1) <= Z.pos m
  | _ => False
  end.

Definition big_enough (r : Rect) : bool :=
  let '(_, _, w, h) := r in (50 <? w) && (50 <? h).

(** The stub pipeline on a 64 x 64 frame keeps the one large region, with
    confidence 0.9. *)
Definition stub_detection : Detection :=
  mkDetection (0, 0, 60, 60) (Float.lit 9 10) "karbohidrat".

Definition stub_after_detection : World nat :=
  snd (detect_objects Stub.cv Stub.frame Stub.model Stub.world).

(** A world after 41 earlier calls of the classifier, with other effects
    behind it. *)
Definition stub_later_world : World nat := {|
  w_classifier := 41%nat;
  w_store := {[ 1%positive := Stub.tiny ]};
  w_events := [EvSleep];
  w_cache := Some None;
  w_model_file := Raises (Exn "OSError" "No file or directory found");
  w_feed := [Stub.tiny];
  w_camera_held := true
|}.

(** A classifier that answers by the parity of its call counter. *)
Definition flaky_model : Model nat :=
  {| predict s _ :=
       (Returns [if Nat.even s then Stub.scores else repeat (Float.lit 2 10) 5],
        S s) |}.

(** A classifier whose first answer to every batch is [v]. *)
Definition always_answers {CS} (model : Model CS) (v : list spec_float) : Prop :=
  forall s t, exists batch s',
    predict model s t = (Returns batch, s') /\ batch !! 0%nat = Some v.

(** ** What the overlay renderer is expected to draw *)

(** The colour of a class: its entry in the table, else the default. *)
Definition overlay_color (class_name : string) : Color :=
  match DETECTION_COLORS !! class_name with
  | Some color => color
  | None => (0, 255, 0)
  end.

(** The three drawing calls for one detection, on the array [target]: the
    box outline, two pixels thick; the filled label background, as wide and
    as high as the text, above the top-left corner of the box; the label in
    white. *)
Definition overlay_calls (cv : cv2_backend) (target : loc) (det : Detection)
    : list Event :=
  let '(x, y, w, h) := det_box det in
  let color := overlay_color (det_class det) in
  let label := det_class det +:+ ": " +:+ Float.format_2f (det_confidence det) in
  let '((label_w, label_h), _) :=
    getTextSize cv label cv2.FONT_HERSHEY_SIMPLEX (Float.lit 5 10) 2 in
  [EvRectangle target (x, y) (x + w, y + h) color 2;
   EvRectangle target (x, y - label_h - 10) (x + label_w, y) color (-1);
   EvPutText target label (x, y - 5) cv2.FONT_HERSHEY_SIMPLEX (Float.lit 5 10)
     (255, 255, 255) 2].

(** The pixels after these three calls. *)
Definition paint_detection (cv : cv2_backend) (a : Image) (det : Detection)
    : Image :=
  let '(x, y, w, h) := det_box det in
  let color := overlay_color (det_class det) in
  let label := det_class det +:+ ": " +:+ Float.format_2f (det_confidence det) in
  let '((label_w, label_h), _) :=
    getTextSize cv label cv2.FONT_HERSHEY_SIMPLEX (Float.lit 5 10) 2 in
  putText cv
    (rectangle cv
       (rectangle cv a (x, y) (x + w, y + h) color 2)
       (x, y - label_h - 10) (x + label_w, y) color (-1))
    label (x, y - 5) cv2.FONT_HERSHEY_SIMPLEX (Float.lit 5 10)
    (255, 255, 255) 2.

Definition paint (cv : cv2_backend) (a : Image) (dets : list Detection)
    : Image :=
  fold_left (paint_detection cv) dets a.

(** [n] hundredths is a decimal nearest to [m * 2^e]: with
    [100 * m * 2^e = p / q], the distance [|n - p / q|] is at most 1/2. *)
Definition nearest_hundredth (m : positive) (e n : Z) : Prop :=
  let p := 100 * Z.pos m * 2 ^ Z.max e 0 in
  let q := 2 ^ Z.max (- e) 0 in
  0 <= n /\ 2 * Z.abs (n * q - p) <= q.

(** [text] writes [c] with two decimal places. *)
Definition two_decimal_text (c : spec_float) (text : string) : Prop :=
  match c with
  | S754_finite s m e =>
      exists n d1 d0,
        nearest_hundredth m e n /\
        0 <= d1 <= 9 /\ 0 <= d0 <= 9 /\ n mod 100 = 10 * d1 + d0 /\
        text = (if s then "-" else "") +:+ pretty (n / 100) +:+ "."
                 +:+ pretty d1 +:+ pretty d0
  | S754_zero s => text = if s then "-0.00" else "0.00"
  | S754_infinity s => text = if s then "-inf" else "inf"
  | S754_nan => text = "nan"
  end.

(** A world whose store holds the stub frame at location 1. *)
Definition stub_store_world : World nat := {|
  w_classifier := 0%nat;
  w_store := {[ 1%positive := Stub.tiny ]};
  w_events := [];
  w_cache := None;
  w_model_file := Returns Stub.model;
  w_feed := [];
  w_camera_held := false
|}.

(** The world [w] with the model file and the camera feed that a run of the
    script finds. *)
Definition with_surroundings {CS} (w : World CS) (file : outcome (Model CS))
    (feed : list Image) : World CS :=
  mkWorld (w_classifier w) (w_store w) (w_events w) (w_cache w) file feed
    (w_camera_held w).

(** The world [w] after the effects [new]. *)
Definition with_events {CS} (w : World CS) (new : list Event) : World CS :=
  mkWorld (w_classifier w) (w_store w) (w_events w ++ new) (w_cache w)
    (w_model_file w) (w_feed w) (w_camera_held w).

Definition is_camera_event (ev : Event) : Prop :=
  match ev with
  | EvCameraOpen | EvCameraRead _ | EvCameraRelease => True
  | _ => False
  end.

(** A world in which the model file is missing. *)
Definition missing_file : exn :=
  Exn "OSError" "No file or directory found at ./model/model.h5".

Definition stub_missing_world : World nat := {|
  w_classifier := 0%nat;
  w_store := ∅;
  w_events := [];
  w_cache := None;
  w_model_file := Raises missing_file;
  w_feed := [Stub.frame];
  w_camera_held := false
|}.

Definition live_inputs : Inputs := {|
  selected := "Live Camera";
  uploaded_file := None;
  detect_clicked := false;
  start_camera := true
|}.

Definition upload_inputs : Inputs := {|
  selected := "Upload Image";
  uploaded_file := Some "upload.jpg";
  detect_clicked := true;
  start_camera := false
|}.

(** A classifier that raises. *)
Definition failing_model : Model nat :=
  {| predict s _ := (Raises (Exn "RuntimeError" "predict failed"), s) |}.

(** The number of calls of [detect_objects] among some effects. *)
Definition is_detect (ev : Event) : bool :=
  match ev with EvDetect => true | _ => false end.

Definition detect_calls (evs : list Event) : nat :=
  length (List.filter is_detect evs).

(** The model is at hand: cached, or loadable with nothing cached yet. *)
Definition model_available {CS} (w : World CS) (model : Model CS) : Prop :=
  w_cache w = Some (Some model) \/
  (w_cache w = None /\ w_model_file w = Returns model).

Definition CAMERA_FAILED : string := "Failed to access camera".

Definition stub_session :
    list (Inputs * outcome (Model nat) * list Image) :=
  [(upload_inputs, Returns Stub.model, []);
   (live_inputs, Returns Stub.model, [Stub.frame])].

(** A step from [w] to [w1] that adds the effects [new] and leaves the
    camera alone. *)
Definition extends {CS} (w w1 : World CS) (new : list Event) : Prop :=
  w_events w1 = w_events w ++ new /\
  w_feed w1 = w_feed w /\ w_camera_held w1 = w_camera_held w.

Definition is_release (ev : Event) : bool :=
  match ev with EvCameraRelease => true | _ => false end.

(** Worlds for the live page: the model loads; the feed holds one frame. *)
Definition stub_one_frame_world : World nat := {|
  w_classifier := 0%nat;
  w_store := ∅;
  w_events := [];
  w_cache := None;
  w_model_file := Returns Stub.model;
  w_feed := [Stub.frame];
  w_camera_held := false
|}.

Definition stub_failing_model_world : World nat := {|
  w_classifier := 0%nat;
  w_store := ∅;
  w_events := [];
  w_cache := Some (Some failing_model);
  w_model_file := Returns failing_model;
  w_feed := [Stub.frame];
  w_camera_held := false
|}.

(** ** Order of the floats *)

(** Zeros and finite numbers, with their value [float_num * 2 ^ float_exp]. *)
Definition is_real (x : spec_float) : Prop :=
  match x with
  | S754_zero _ | S754_finite _ _ _ => True
  | _ => False
  end.

Definition float_num (x : spec_float) : Z :=
  match x with
  | S754_finite s m _ => Float.signed s m
  | _ => 0
  end.

Definition float_exp (x : spec_float) : Z :=
  match x with
  | S754_finite _ _ e => e
  | _ => 0
  end.

(** ** What a detection reports *)

(** The detection [d] reports the top score of an answer of the classifier
    to the preprocessed crop of its box: its confidence stands in the score
    vector at some index, no score is above it, and its class is the name
    at the same index of [CLASS_NAMES]. *)
Definition reports_top_score {CS} (cv : cv2_backend) (image : Image)
    (model : Model CS) (d : Detection) : Prop :=
  exists (t : Tensor) (s s' : CS) (batch : list (list spec_float))
         (scores : list spec_float) (idx : nat),
    preprocess_frame cv (crop image (det_box d)) default_target_size
      = Returns t /\
    predict model s t = (Returns batch, s') /\
    batch !! 0%nat = Some scores /\
    scores !! idx = Some (det_confidence d) /\
    CLASS_NAMES !! idx = Some (det_class d) /\
    Forall (fun x => Float.le x (det_confidence d) = true) scores.

(** A classifier none of whose answers reaches the threshold. *)
Definition never_confident {CS} (model : Model CS) : Prop :=
  forall s t batch s' scores c,
    predict model s t = (Returns batch, s') ->
    batch !! 0%nat = Some scores ->
    np.max scores = Returns c ->
    Float.ge c CONFIDENCE_THRESHOLD = false.

(** A classifier whose answer is a function of its input alone. *)
Definition answers_by {CS} (model : Model CS)
    (f : Tensor -> outcome (list (list spec_float))) : Prop :=
  forall s t, fst (predict model s t) = f t.

(** The region [r] qualifies under [f] with confidence [c]: the top score
    of [f]'s answer to its preprocessed crop is [c], and [c >= 0.5]. *)
Definition qualifies (cv : cv2_backend) (image : Image)
    (f : Tensor -> outcome (list (list spec_float))) (r : Rect)
    (c : spec_float) : Prop :=
  exists t batch scores,
    preprocess_frame cv (crop image r) default_target_size = Returns t /\
    f t = Returns batch /\ batch !! 0%nat = Some scores /\
    np.max scores = Returns c /\
    Float.ge c CONFIDENCE_THRESHOLD = true.

(** A classifier with NaN among its scores. *)
Definition nan_model : Model nat :=
  {| predict s _ :=
       (Returns [[Float.lit 9 10; S754_nan; Float.lit 2 100;
                  Float.lit 2 100; Float.lit 2 100]], S s) |}.

(** ** Regions inside the frame *)

(** The rectangle lies inside [image], with a positive width and height. *)
Definition inside_frame (image : Image) (r : Rect) : Prop :=
  let '(x, y, w, h) := r in
  0 <= x /\ 0 <= y /\ 0 < w /\ 0 < h /\
  x + w <= Z.of_nat (length (hd [] image)) /\
  y + h <= Z.of_nat (length image).

(** A classifier with six scores, the largest at index 5. *)
Definition six_scores : list spec_float :=
  [Float.lit 2 100; Float.lit 2 100; Float.lit 2 100; Float.lit 2 100;
   Float.lit 2 100; Float.lit 9 10].

Definition six_class_model : Model nat :=
  {| predict s _ := (Returns [six_scores], S s) |}.

(** ** Computations that leave the camera alone *)

(** Effects without any use of the camera. *)
Definition calm (new : list Event) : Prop :=
  Forall (fun ev => ~ is_camera_event ev) new.

(** Whatever its outcome, [c] only adds effects, none of them on the
    camera and at most [n] of them calls of [detect_objects], and leaves
    the device and its feed as they are. *)
Definition quiet {CS A} (n : nat) (c : M CS A) : Prop :=
  forall w, exists new,
    extends w (snd (c w)) new /\ calm new /\ (detect_calls new <= n)%nat.

(** Whatever its outcome, [c] leaves the device as it found it and does
    not release it. *)
Definition unreleased {CS A} (c : M CS A) : Prop :=
  forall w,
    w_camera_held (snd (c w)) = w_camera_held w /\
    exists new,
      w_events (snd (c w)) = w_events w ++ new /\
      existsb is_release new = false.

(** One round of the capture loop on [frame] raises nothing: the pipeline
    returns on it, and so does the conversion of the painted frame. *)
Definition round_returns {CS} (cv : cv2_backend) (model : Model CS)
    (frame : Image) : Prop :=
  (forall w0, exists ds, fst (detect_objects cv frame model w0) = Returns ds) /\
  (forall ds, exists rgb,
     cvtColor cv (paint cv frame ds) cv2.COLOR_BGR2RGB = Returns rgb).

(** * Theorems *)

(** ** The threshold comparison *)

Lemma threshold_value :
  CONFIDENCE_THRESHOLD = S754_finite false 4503599627370496 (-53).
Proof. vm_compute. reflexivity. Qed.

Lemma cmp_finite_half (m : positive) (e : Z) :
  Float.cmp_finite (Z.pos m) e 4503599627370496 (-53) <> Lt <->
  2 ^ (- e - 1) <= Z.pos m.
Proof.
  unfold Float.cmp_finite, Float.align.
  change 4503599627370496 with (2 ^ 52).
  rewrite Z.compare_lt_iff.
  destruct (Z.le_gt_cases e (-53)) as [He | He].
  - rewrite Z.min_l by lia.
    replace (e - e) with 0 by lia.
    rewrite <- Z.pow_add_r by lia.
    replace (52 + (-53 - e)) with (- e - 1) by lia.
    rewrite Z.pow_0_r. lia.
  - rewrite Z.min_r by lia.
    replace (-53 - -53) with 0 by lia.
    rewrite Z.pow_0_r, Z.mul_1_r.
    destruct (Z.le_gt_cases 0 e) as [He0 | He0].
    + rewrite (Z.pow_neg_r 2 (- e - 1)) by lia.
      assert (2 ^ 53 <= 2 ^ (e - -53)) by (apply Z.pow_le_mono_r; lia).
      assert (2 ^ 52 < 2 ^ 53) by (apply Z.pow_lt_mono_r; lia).
      assert (0 < 2 ^ (e - -53)) by (apply Z.pow_pos_nonneg; lia).
      split; [lia | nia].
    + replace 52 with ((e - -53) + (- e - 1)) at 1 by lia.
      rewrite Z.pow_add_r by lia.
      assert (0 < 2 ^ (e - -53)) by (apply Z.pow_pos_nonneg; lia).
      split; intros; nia.
Qed.

Lemma ge_threshold_iff (x : spec_float) :
  Float.ge x CONFIDENCE_THRESHOLD = true <-> at_least_half x.
Proof.
  rewrite threshold_value. unfold Float.ge.
  destruct x as [s | [|] | | [|] m e]; simpl; try tauto;
    try (split; [discriminate | tauto]).
  - unfold Float.cmp_finite, Float.align.
    assert (0 <= 2 ^ (e - Z.min e (-53))) by (apply Z.pow_nonneg; lia).
    assert (0 < 2 ^ (-53 - Z.min e (-53))) by (apply Z.pow_pos_nonneg; lia).
    destruct (Z.compare_spec (Z.neg m * 2 ^ (e - Z.min e (-53)))
                (4503599627370496 * 2 ^ (-53 - Z.min e (-53))));
      split; try tauto; try discriminate; nia.
  - rewrite <- cmp_finite_half.
    destruct (Float.cmp_finite (Z.pos m) e 4503599627370496 (-53));
      split; congruence.
Qed.

(** ** Region proposer *)

Section RegionProposer.
Variable cv : cv2_backend.

Lemma collect_regions_filter (contours : list Contour) (regions : list Rect) :
  collect_regions cv contours regions =
  regions ++ filter (fun r => big_enough r = true) (map (boundingRect cv) contours).
Proof.
  revert regions. induction contours as [| c rest IH]; intros regions; simpl.
  - by rewrite app_nil_r.
  - destruct (boundingRect cv c) as [[[x y] w] h] eqn:Hc.
    rewrite filter_cons.
    assert (Hb : big_enough (x, y, w, h) = (50 <? w) && (50 <? h)) by done.
    destruct ((50 <? w) && (50 <? h)).
    + rewrite decide_True by done. rewrite IH, <- app_assoc. done.
    + rewrite decide_False by (rewrite Hb; done). apply IH.
Qed.

Lemma get_region_proposals_inv (image : Image) (regions : list Rect) :
  get_region_proposals cv image = Returns regions ->
  exists contours : list Contour,
    regions = filter (fun r => big_enough r = true)
                (map (boundingRect cv) contours).
Proof.
  unfold get_region_proposals, obind. intros H.
  destruct (cvtColor_gray cv image _) as [gray |]; [| discriminate].
  destruct (GaussianBlur cv gray _ _) as [blur |]; [| discriminate].
  destruct (threshold cv blur _ _ _) as [[t thresh] |]; [| discriminate].
  destruct (findContours cv thresh _ _) as [[contours hier] |]; [| discriminate].
  exists contours. injection H as <-. by rewrite collect_regions_filter.
Qed.

(** C2. Every rectangle [(x, y, w, h)] that [get_region_proposals] returns
    has [w > 50] and [h > 50]. *)
Theorem region_proposals_exceed_minimum (image : Image) (regions : list Rect) :
  get_region_proposals cv image = Returns regions ->
  forall x y w h, (x, y, w, h) ∈ regions -> w > 50 /\ h > 50.
Proof.
  intros H x y w h Hin.
  apply get_region_proposals_inv in H as [contours ->].
  apply list_elem_of_filter in Hin as [Hbig _].
  unfold big_enough in Hbig. apply andb_true_iff in Hbig as [Hw Hh].
  apply Z.ltb_lt in Hw, Hh. lia.
Qed.

End RegionProposer.

(** The canned segmentation proposes its large square and drops the two
    contours that are too small in one direction. *)
Lemma region_proposals_exceed_minimum_witness :
  get_region_proposals Stub.cv Stub.frame = Returns [(0, 0, 60, 60)] /\
  (60 > 50 /\ 60 > 50).
Proof.
  split; [reflexivity |].
  apply (region_proposals_exceed_minimum Stub.cv Stub.frame [(0, 0, 60, 60)]
           eq_refl 0 0 60 60).
  apply list_elem_of_here.
Defined.

(** ** Detection pipeline *)

Lemma py_index_elem_of {A} (l : list A) (i : Z) (a : A) :
  py_index l i = Returns a -> a ∈ l.
Proof.
  unfold py_index. intros H.
  destruct (if 0 <=? _ then _ else _) as [a' |] eqn:Hl; [| discriminate].
  injection H as <-.
  destruct (0 <=? _); [| discriminate].
  by eapply list_elem_of_lookup_2.
Qed.

Section DetectionPipeline.
Context {CS : Type}.
Variable cv : cv2_backend.
Variable image : Image.
Variable model : Model CS.

(** One round of the loop over the regions: the detection it appends, if
    any, and the classifier state it leaves. *)
Lemma detect_regions_step (r : Rect) (rest : list Rect)
    (acc ds : list Detection) (w w' : World CS) :
  detect_regions cv image model (r :: rest) acc w = (Returns ds, w') ->
  exists (w1 : World CS) (new : list Detection),
    detect_regions cv image model rest (acc ++ new) w1 = (Returns ds, w') /\
    (new = [] \/
     exists c name, new = [mkDetection r c name] /\
       Float.ge c CONFIDENCE_THRESHOLD = true /\ name ∈ CLASS_NAMES).
Proof.
  destruct r as [[[x y] w0] h]. simpl. unfold bind, lift, model_predict.
  destruct (preprocess_frame cv _ _) as [t |]; [| discriminate].
  destruct (predict model _ t) as [[batch |] s']; [| discriminate].
  destruct (py_index batch 0) as [predictions |]; [| discriminate].
  destruct (np.max predictions) as [c |]; [| discriminate].
  destruct (Float.ge c CONFIDENCE_THRESHOLD) eqn:Hge.
  - destruct (np.argmax predictions) as [idx |]; [| discriminate].
    destruct (py_index CLASS_NAMES idx) as [name |] eqn:Hname; [| discriminate].
    intros H. eexists _, [_]. split; [exact H |].
    right. exists c, name. split_and!; [done | done |].
    by eapply py_index_elem_of.
  - intros H. eexists _, []. rewrite app_nil_r. split; [exact H | by left].
Qed.

Lemma detect_regions_inv (regions : list Rect) (acc ds : list Detection)
    (w w' : World CS) :
  detect_regions cv image model regions acc w = (Returns ds, w') ->
  exists new,
    ds = acc ++ new /\
    sublist (map det_box new) regions /\
    Forall (fun d => Float.ge (det_confidence d) CONFIDENCE_THRESHOLD = true
                     /\ det_class d ∈ CLASS_NAMES) new.
Proof.
  revert acc w. induction regions as [| r rest IH]; intros acc w H.
  - injection H as <- _. exists []. rewrite app_nil_r.
    split_and!; [done | constructor | constructor].
  - apply detect_regions_step in H as (w1 & new & H & Hnew).
    apply IH in H as (more & -> & Hsub & Hall).
    exists (new ++ more). rewrite app_assoc. split; [done |].
    destruct Hnew as [-> | (c & name & -> & Hge & Hname)]; simpl.
    + split; [by apply sublist_cons | done].
    + split; [by apply sublist_skip |]. by constructor.
Qed.

Lemma detect_objects_inv (ds : list Detection) (w w' : World CS) :
  detect_objects cv image model w = (Returns ds, w') ->
  exists regions,
    get_region_proposals cv image = Returns regions /\
    sublist (map det_box ds) regions /\
    Forall (fun d => Float.ge (det_confidence d) CONFIDENCE_THRESHOLD = true
                     /\ det_class d ∈ CLASS_NAMES) ds.
Proof.
  unfold detect_objects, bind, lift, emit.
  destruct (get_region_proposals cv image) as [regions |]; [| discriminate].
  intros H. apply detect_regions_inv in H as (new & -> & Hsub & Hall).
  by exists regions.
Qed.

(** C1. Every detection that [detect_objects] returns has a confidence
    that compares [>=] to the threshold 0.5: its value is at least one
    half, and it is not NaN. *)
Theorem detections_reach_threshold (ds : list Detection) (w w' : World CS) :
  detect_objects cv image model w = (Returns ds, w') ->
  forall d, d ∈ ds ->
    Float.ge (det_confidence d) CONFIDENCE_THRESHOLD = true /\
    at_least_half (det_confidence d).
Proof.
  intros H d Hd.
  apply detect_objects_inv in H as (regions & _ & _ & Hall).
  rewrite Forall_forall in Hall. destruct (Hall d Hd) as [Hge _].
  split; [done | by apply ge_threshold_iff].
Qed.

(** C10. The boxes of the detections form, in order, a subsequence of the
    proposed regions (so each box is a proposed region, a region gives at
    most one detection, and there are no more detections than regions),
    and every class is one of the five names of [CLASS_NAMES]. *)
Theorem detections_select_regions (ds : list Detection) (w w' : World CS) :
  detect_objects cv image model w = (Returns ds, w') ->
  exists regions,
    get_region_proposals cv image = Returns regions /\
    sublist (map det_box ds) regions /\
    (forall d, d ∈ ds -> det_box d ∈ regions) /\
    (length ds <= length regions)%nat /\
    (forall d, d ∈ ds -> det_class d ∈ CLASS_NAMES) /\
    length CLASS_NAMES = 5%nat.
Proof.
  intros H.
  apply detect_objects_inv in H as (regions & Hreg & Hsub & Hall).
  exists regions. split_and!; try done.
  - intros d Hd. eapply elem_of_sublist; [| exact Hsub].
    by apply list_elem_of_fmap_2.
  - apply sublist_length in Hsub. by rewrite length_map in Hsub.
  - intros d Hd. rewrite Forall_forall in Hall. by apply Hall.
Qed.

End DetectionPipeline.

Lemma stub_detect_objects :
  detect_objects Stub.cv Stub.frame Stub.model Stub.world =
  (Returns [stub_detection], stub_after_detection).
Proof. lazy. reflexivity. Qed.

Lemma detections_reach_threshold_witness :
  Float.ge (det_confidence stub_detection) CONFIDENCE_THRESHOLD = true /\
  at_least_half (det_confidence stub_detection).
Proof.
  apply (detections_reach_threshold Stub.cv Stub.frame Stub.model
           [stub_detection] Stub.world stub_after_detection).
  - lazy. reflexivity.
  - apply list_elem_of_here.
Defined.

Lemma detections_select_regions_witness :
  exists regions,
    get_region_proposals Stub.cv Stub.frame = Returns regions /\
    sublist (map det_box [stub_detection]) regions /\
    (forall d, d ∈ [stub_detection] -> det_box d ∈ regions) /\
    (length [stub_detection] <= length regions)%nat /\
    (forall d, d ∈ [stub_detection] -> det_class d ∈ CLASS_NAMES) /\
    length CLASS_NAMES = 5%nat.
Proof.
  apply (detections_select_regions Stub.cv Stub.frame Stub.model
           [stub_detection] Stub.world stub_after_detection).
  lazy. reflexivity.
Defined.

(** ** Determinism and order *)

Section Determinism.
Context {CS : Type}.
Variable cv : cv2_backend.
Variable image : Image.
Variable model : Model CS.
Hypothesis model_deterministic : deterministic model.

Lemma detect_regions_deterministic (regions : list Rect)
    (acc : list Detection) (w1 w2 : World CS) :
  fst (detect_regions cv image model regions acc w1) =
  fst (detect_regions cv image model regions acc w2).
Proof.
  revert acc w1 w2.
  induction regions as [| [[[x y] w0] h] rest IH]; intros acc w1 w2; [done |].
  simpl. unfold bind, lift, model_predict.
  destruct (preprocess_frame cv _ _) as [t |]; [| done].
  pose proof (model_deterministic (w_classifier w1) (w_classifier w2) t) as Hdet.
  destruct (predict model (w_classifier w1) t) as [r1 s1].
  destruct (predict model (w_classifier w2) t) as [r2 s2].
  simpl in Hdet. subst r2.
  destruct r1 as [batch |]; [| done].
  destruct (py_index batch 0) as [predictions |]; [| done].
  destruct (np.max predictions) as [c |]; [| done].
  destruct (Float.ge c CONFIDENCE_THRESHOLD); [| apply IH].
  destruct (np.argmax predictions) as [idx |]; [| done].
  destruct (py_index CLASS_NAMES idx) as [name |]; [| done].
  apply IH.
Qed.

(** C5. With a deterministic classifier, two runs of [detect_objects] on
    the same frame give the same result whatever the state of the world
    and of the classifier they start from; and the boxes of the
    detections follow the order of the proposed regions. *)
Theorem detect_objects_deterministic_ordered (w1 w2 : World CS) :
  fst (detect_objects cv image model w1) =
  fst (detect_objects cv image model w2) /\
  (forall ds, fst (detect_objects cv image model w1) = Returns ds ->
     exists regions, get_region_proposals cv image = Returns regions /\
       sublist (map det_box ds) regions).
Proof.
  split.
  - unfold detect_objects, bind, lift, emit.
    destruct (get_region_proposals cv image) as [regions |]; [| done].
    apply detect_regions_deterministic.
  - intros ds H.
    destruct (detect_objects cv image model w1) as [r w'] eqn:Hrun.
    simpl in H. subst r.
    apply detect_objects_inv in Hrun as (regions & Hreg & Hsub & _).
    by exists regions.
Qed.

End Determinism.

Lemma detect_objects_deterministic_ordered_witness :
  fst (detect_objects Stub.cv Stub.frame Stub.model Stub.world) =
  fst (detect_objects Stub.cv Stub.frame Stub.model stub_later_world) /\
  (forall ds,
     fst (detect_objects Stub.cv Stub.frame Stub.model Stub.world) = Returns ds ->
     exists regions, get_region_proposals Stub.cv Stub.frame = Returns regions /\
       sublist (map det_box ds) regions).
Proof.
  apply (detect_objects_deterministic_ordered Stub.cv Stub.frame Stub.model).
  intros s s' t. reflexivity.
Defined.

(** Without determinism the result may change: the classifier that answers
    by the parity of its call counter detects in one run and not in the
    next. *)
Lemma flaky_model_not_stable :
  fst (detect_objects Stub.cv Stub.frame flaky_model Stub.world) =
    Returns [stub_detection] /\
  fst (detect_objects Stub.cv Stub.frame flaky_model stub_later_world) =
    Returns [].
Proof. split; lazy; reflexivity. Qed.

(** ** A classifier with constant scores *)

Lemma py_index_first {A} (l : list A) (a : A) :
  l !! 0%nat = Some a -> py_index l 0 = Returns a.
Proof.
  intros H. destruct l as [| x l]; [discriminate |].
  injection H as ->. reflexivity.
Qed.

Section ConstantScores.
Context {CS : Type}.
Variable cv : cv2_backend.
Variable image : Image.
Variable model : Model CS.
Hypothesis model_constant : always_answers model Stub.scores.

Lemma constant_scores_step (r : Rect) (rest : list Rect)
    (acc ds : list Detection) (w w' : World CS) :
  detect_regions cv image model (r :: rest) acc w = (Returns ds, w') ->
  exists w1 : World CS,
    detect_regions cv image model rest
      (acc ++ [mkDetection r (Float.lit 9 10) "karbohidrat"]) w1
    = (Returns ds, w').
Proof.
  destruct r as [[[x y] w0] h]. simpl. unfold bind, lift, model_predict.
  destruct (preprocess_frame cv _ _) as [t |]; [| discriminate].
  destruct (model_constant (w_classifier w) t) as (batch & s' & -> & Hrow).
  rewrite (py_index_first _ _ Hrow).
  change (np.max Stub.scores) with (Returns (A := spec_float) (Float.lit 9 10)).
  replace (Float.ge (Float.lit 9 10) CONFIDENCE_THRESHOLD) with true
    by (vm_compute; reflexivity).
  replace (np.argmax Stub.scores) with (Returns (A := Z) 0)
    by (vm_compute; reflexivity).
  change (py_index CLASS_NAMES 0) with (Returns (A := string) "karbohidrat").
  intros H. eexists. exact H.
Qed.

Lemma constant_scores_regions (regions : list Rect)
    (acc ds : list Detection) (w w' : World CS) :
  detect_regions cv image model regions acc w = (Returns ds, w') ->
  ds = acc ++ map (fun r => mkDetection r (Float.lit 9 10) "karbohidrat") regions.
Proof.
  revert acc w. induction regions as [| r rest IH]; intros acc w H.
  - injection H as <- _. by rewrite app_nil_r.
  - apply constant_scores_step in H as [w1 H].
    apply IH in H as ->. by rewrite <- app_assoc.
Qed.

(** C8, as the code has it. With a classifier that always answers
    [0.9, 0.02, 0.02, 0.02, 0.04], [detect_objects] returns one detection
    per proposed region, each with confidence 0.9 and with the class
    ["karbohidrat"], the first element of [CLASS_NAMES]. *)
Theorem constant_scores_detect_karbohidrat (ds : list Detection)
    (w w' : World CS) :
  detect_objects cv image model w = (Returns ds, w') ->
  get_region_proposals cv image = Returns (map det_box ds) /\
  forall d, d ∈ ds ->
    det_class d = "karbohidrat" /\
    CLASS_NAMES !! 0%nat = Some (det_class d) /\
    det_confidence d = Float.lit 9 10.
Proof.
  unfold detect_objects, bind, lift, emit.
  destruct (get_region_proposals cv image) as [regions |]; [| discriminate].
  intros H. apply constant_scores_regions in H as ->. simpl.
  split.
  - f_equal. rewrite map_map. simpl. by rewrite map_id.
  - intros d Hd. apply list_elem_of_fmap in Hd as (r & -> & _). done.
Qed.

End ConstantScores.

Lemma constant_scores_detect_karbohidrat_witness :
  get_region_proposals Stub.cv Stub.frame =
    Returns (map det_box [stub_detection]) /\
  forall d, d ∈ [stub_detection] ->
    det_class d = "karbohidrat" /\
    CLASS_NAMES !! 0%nat = Some (det_class d) /\
    det_confidence d = Float.lit 9 10.
Proof.
  apply (constant_scores_detect_karbohidrat Stub.cv Stub.frame Stub.model)
    with (w := Stub.world) (w' := stub_after_detection).
  - intros s t. exists [Stub.scores], (S s). split; reflexivity.
  - lazy. reflexivity.
Defined.

(** C8, as the claim words it, fails: the detection that the stub pipeline
    emits under these scores has the class ["karbohidrat"], which is not
    the string ["carbohydrate"]. *)
Lemma constant_scores_class_is_not_carbohydrate :
  always_answers Stub.model Stub.scores /\
  detect_objects Stub.cv Stub.frame Stub.model Stub.world =
    (Returns [stub_detection], stub_after_detection) /\
  ~ (forall d, d ∈ [stub_detection] -> det_class d = "carbohydrate").
Proof.
  split_and!.
  - intros s t. exists [Stub.scores], (S s). split; reflexivity.
  - lazy. reflexivity.
  - intros H. specialize (H stub_detection (list_elem_of_here _ _)).
    discriminate H.
Qed.

(** ** Frame preprocessor *)

(** The 256 quotients [v / 255] in single precision all lie in [[0, 1]]
    and are single-precision numbers. *)
Lemma normalize_table :
  forallb (fun n => in_unit_interval (normalize (Z.of_nat n)) &&
                    valid_binary 24 128 (normalize (Z.of_nat n)))
    (seq 0 256) = true.
Proof. vm_compute. reflexivity. Qed.

Lemma normalize_in_unit_interval (v : Z) :
  uint8 v ->
  in_unit_interval (normalize v) = true /\
  valid_binary 24 128 (normalize v) = true.
Proof.
  intros [Hlo Hhi].
  pose proof normalize_table as Htab.
  rewrite forallb_forall in Htab.
  specialize (Htab (Z.to_nat v)).
  rewrite Z2Nat.id in Htab by done.
  apply andb_true_iff, Htab, in_seq. lia.
Qed.

Lemma normalize_endpoints :
  normalize 0 = Float.zero /\ normalize 255 = S754_finite false 8388608 (-23) /\
  Float.compare (normalize 255) Float.one = Some Eq.
Proof. vm_compute. done. Qed.

Section FramePreprocessor.
Variable cv : cv2_backend.
Hypothesis resize_ok : resize_contract cv default_target_size.

(** C3. On a non-empty three-channel frame of 8-bit intensities,
    [preprocess_frame] returns (it raises nothing), its result has shape
    (1, 224, 224, 3), and every value of the result is a single-precision
    float between 0 and 1. *)
Theorem preprocess_frame_shape_and_range (frame : Image) :
  is_frame frame ->
  exists t : Tensor,
    preprocess_frame cv frame default_target_size = Returns t /\
    has_shape 1 224 224 3 t /\
    Forall (fun v => in_unit_interval v = true /\
                     valid_binary 24 128 v = true) (tensor_values t).
Proof.
  intros Hframe.
  destruct (resize_ok frame Hframe) as (out & Hres & Hh & Hw & Hpx).
  unfold preprocess_frame. rewrite Hres. simpl.
  eexists. split; [reflexivity |]. split.
  - split; [done |]. constructor; [| constructor].
    rewrite length_map. split; [exact Hh |].
    apply Forall_fmap. rewrite Forall_forall in Hw, Hpx.
    apply Forall_forall. intros row Hrow. simpl.
    rewrite length_map. split; [by apply Hw |].
    apply Forall_fmap. apply Forall_forall. intros px Hin. simpl.
    rewrite length_map.
    specialize (Hpx row Hrow). rewrite Forall_forall in Hpx.
    by destruct (Hpx px Hin).
  - unfold tensor_values. simpl. rewrite app_nil_r.
    apply Forall_concat, Forall_concat.
    apply Forall_fmap. eapply Forall_impl; [exact Hpx |].
    intros row Hrow. simpl.
    apply Forall_fmap. eapply Forall_impl; [exact Hrow |].
    intros px [_ Hvals]. simpl.
    apply Forall_fmap. eapply Forall_impl; [exact Hvals |].
    intros v Hv. by apply normalize_in_unit_interval.
Qed.

End FramePreprocessor.

(** Nearest-neighbour resampling meets the contract of [cv2.resize], for
    every target size. *)
Lemma scaled_index_bound (i n len : nat) :
  (i < n)%nat -> (0 < len)%nat -> (i * len / n < len)%nat.
Proof.
  intros Hi Hlen. apply Nat.Div0.div_lt_upper_bound.
  apply Nat.mul_lt_mono_pos_r; lia.
Qed.

Lemma stub_resize_contract (size : Z * Z) : resize_contract Stub.cv size.
Proof.
  intros img (Hne & (w & Hw & Hrows) & Hpx).
  change (resize Stub.cv img size) with (Stub.nearest img size).
  unfold Stub.nearest.
  generalize (Z.to_nat (fst size)) (Z.to_nat (snd size)). intros tw th.
  assert (HH : (0 < length img)%nat) by (destruct img; [done | simpl; lia]).
  assert (HW : length (hd [] img) = w).
  { destruct img as [| row0 img']; [done |]. by inversion Hrows. }
  rewrite Forall_forall in Hrows, Hpx.
  replace ((length img =? 0)%nat || (length (hd [] img) =? 0)%nat) with false.
  2: { symmetry. apply orb_false_iff. split; apply Nat.eqb_neq; lia. }
  eexists. split; [reflexivity |].
  assert (Hrow : forall i, (i < th)%nat ->
            nth (i * length img / th) img [] ∈ img).
  { intros i Hi. apply list_elem_of_In, nth_In. by apply scaled_index_bound. }
  split_and!.
  - rewrite length_map. apply length_seq.
  - apply Forall_fmap, Forall_forall. intros i _.
    simpl. rewrite length_map. apply length_seq.
  - apply Forall_fmap, Forall_forall. intros i Hi.
    apply elem_of_seq in Hi. simpl.
    apply Forall_fmap, Forall_forall. intros j Hj.
    apply elem_of_seq in Hj. simpl.
    specialize (Hrow i ltac:(lia)).
    pose proof (Hpx _ Hrow) as Hgood. rewrite Forall_forall in Hgood.
    apply Hgood, list_elem_of_In, nth_In.
    rewrite (Hrows _ Hrow), HW. apply scaled_index_bound; lia.
Qed.

Lemma stub_tiny_is_frame : is_frame Stub.tiny.
Proof.
  split_and!.
  - discriminate.
  - exists 2%nat. split; [lia |]. repeat constructor.
  - unfold bgr_pixel, uint8. repeat constructor; simpl; lia.
Qed.

Lemma preprocess_frame_shape_and_range_witness :
  exists t : Tensor,
    preprocess_frame Stub.cv Stub.tiny default_target_size = Returns t /\
    has_shape 1 224 224 3 t /\
    Forall (fun v => in_unit_interval v = true /\
                     valid_binary 24 128 v = true) (tensor_values t).
Proof.
  apply (preprocess_frame_shape_and_range Stub.cv
           (stub_resize_contract default_target_size) Stub.tiny).
  apply stub_tiny_is_frame.
Defined.

(** ** Overlay renderer *)

(** *** Two decimal places *)

Lemma round_half_even_nearest (p q : Z) :
  0 <= p -> 0 < q ->
  0 <= Float.round_half_even p q /\
  2 * Z.abs (Float.round_half_even p q * q - p) <= q.
Proof.
  intros Hp Hq. unfold Float.round_half_even.
  pose proof (Z.div_mod p q ltac:(lia)) as Hdm.
  pose proof (Z.mod_pos_bound p q Hq) as Hr.
  pose proof (Z.div_pos p q Hp Hq) as Hd.
  destruct (Z.compare_spec (2 * (p mod q)) q) as [Heq | Hlt | Hgt].
  - destruct (Z.even (p / q)); split; try lia.
  - split; lia.
  - split; lia.
Qed.

Lemma hundredths_nearest (m : positive) (e : Z) :
  nearest_hundredth m e (Float.hundredths m e).
Proof.
  unfold nearest_hundredth, Float.hundredths.
  destruct (Z.leb_spec 0 e) as [He | He].
  - rewrite (Z.max_l e 0), (Z.max_r (- e) 0) by lia. rewrite Z.pow_0_r.
    assert (0 <= 2 ^ e) by (apply Z.pow_nonneg; lia).
    split; [nia | lia].
  - rewrite (Z.max_r e 0), (Z.max_l (- e) 0) by lia.
  rewrite Z.pow_0_r, Z.mul_1_r.
    apply round_half_even_nearest; [lia |].
    apply Z.pow_pos_nonneg; lia.
Qed.

Lemma format_2f_two_decimals (c : spec_float) :
  two_decimal_text c (Float.format_2f c).
Proof.
  destruct c as [s | s | | s m e]; try reflexivity. simpl.
  pose proof (hundredths_nearest m e) as Hn.
  set (n := Float.hundredths m e) in *.
  pose proof (Z.mod_pos_bound n 100 ltac:(lia)) as Hk.
  pose proof (Z.div_mod (n mod 100) 10 ltac:(lia)) as Hdm.
  pose proof (Z.mod_pos_bound (n mod 100) 10 ltac:(lia)) as Hd0.
  exists n, (n mod 100 / 10), ((n mod 100) mod 10).
  split_and!; try lia; try done.
Qed.

(** *** The drawing calls *)

Section OverlayRenderer.
Context {CS : Type}.
Variable cv : cv2_backend.

Lemma draw_detection_run (target : loc) (det : Detection) (w : World CS) :
draw_detection cv target det w =
(Returns tt,
 mkWorld (w_classifier w)
   (alter (fun a => paint_detection cv a det) target (w_store w))
   (w_events w ++ overlay_calls cv target det)
   (w_cache w) (w_model_file w) (w_feed w) (w_camera_held w)).
Proof.
unfold draw_detection, paint_detection, overlay_calls, make_label,
  overlay_color, DEFAULT_COLOR, FONT_SCALE, WHITE.
destruct (det_box det) as [[[x y] bw] bh].
destruct (getTextSize cv _ _ _ _) as [[label_w label_h] baseline].
unfold cv2_rectangle, cv2_putText, update_array, bind, emit, get_store,
  set_store, default. simpl.
rewrite !alter_alter_eq, <- !app_assoc. simpl.
destruct (DETECTION_COLORS !! det_class det); reflexivity.
Qed.

Lemma for_each_draw_run (target : loc) (dets : list Detection) (w : World CS) :
for_each dets (draw_detection cv target) w =
(Returns tt,
 mkWorld (w_classifier w)
   (alter (fun a => paint cv a dets) target (w_store w))
   (w_events w ++ flat_map (overlay_calls cv target) dets)
   (w_cache w) (w_model_file w) (w_feed w) (w_camera_held w)).
Proof.
revert w. induction dets as [| det rest IH]; intros w; simpl.
- unfold ret, paint. simpl. rewrite app_nil_r.
  rewrite (alter_id (fun a => a)) by done. by destruct w.
- unfold bind. rewrite draw_detection_run, IH. simpl.
  rewrite alter_alter_eq, <- app_assoc. reflexivity.
Qed.

Lemma draw_detection_boxes_run (image : loc) (dets : list Detection)
  (w : World CS) :
let out := fresh (dom (w_store w)) in
draw_detection_boxes cv image dets w =
(Returns out,
 mkWorld (w_classifier w)
   (<[out := paint cv (w_store w !!! image) dets]> (w_store w))
   (w_events w ++ flat_map (overlay_calls cv out) dets)
   (w_cache w) (w_model_file w) (w_feed w) (w_camera_held w)).
Proof.
unfold draw_detection_boxes, ndarray_copy, read_array, new_array, bind,
  get_store, set_store, ret. simpl.
rewrite for_each_draw_run. simpl.
by rewrite alter_insert_eq.
Qed.

(** C4. [draw_detection_boxes] returns a new array object: a location that
  was not in use, different from the input frame. After the call the
  input frame, and every other array that existed, holds what it held
  before; the new array holds the input's pixels with the annotations
  painted on them, and every drawing call addressed the new array. *)
Theorem draw_detection_boxes_leaves_input (image : loc) (a : Image)
  (dets : list Detection) (w : World CS) :
w_store w !! image = Some a ->
exists (out : loc) (w' : World CS),
  draw_detection_boxes cv image dets w = (Returns out, w') /\
  out <> image /\ w_store w !! out = None /\
  w_store w' !! image = Some a /\
  (forall l, l <> out -> w_store w' !! l = w_store w !! l) /\
  w_store w' !! out = Some (paint cv a dets) /\
  (exists calls, w_events w' = w_events w ++ calls /\
     forall target pt1 pt2 color thickness text org font scale,
       (EvRectangle target pt1 pt2 color thickness ∈ calls ->
        target = out) /\
       (EvPutText target text org font scale color thickness ∈ calls ->
        target = out)).
Proof.
intros Himage.
pose proof (draw_detection_boxes_run image dets w) as Hrun.
set (out := fresh (dom (w_store w))) in *. simpl in Hrun.
assert (Hfresh : w_store w !! out = None).
{ apply not_elem_of_dom. apply is_fresh. }
assert (Hne : out <> image) by congruence.
eexists out, _. split; [exact Hrun |]. simpl.
split_and!; try done.
- by rewrite lookup_insert_ne.
- intros l Hl. by rewrite lookup_insert_ne.
- rewrite lookup_insert_eq. rewrite lookup_total_alt, Himage. done.
- eexists. split; [reflexivity |].
  intros target pt1 pt2 color thickness text org font scale.
  split; intros Hin; apply list_elem_of_In, in_flat_map in Hin
    as (det & _ & Hin); unfold overlay_calls in Hin;
    destruct (det_box det) as [[[x y] bw] bh];
    destruct (getTextSize cv _ _ _ _) as [[label_w label_h] baseline];
    simpl in Hin; intuition congruence.
Qed.

End OverlayRenderer.

(** On the stub backend the copy at the new location 2 carries the marks,
    and the input at location 1 is as it was. *)
Lemma draw_detection_boxes_leaves_input_witness :
  exists (out : loc) (w' : World nat),
    draw_detection_boxes Stub.cv 1%positive [stub_detection] stub_store_world
      = (Returns out, w') /\
    out <> 1%positive /\ w_store stub_store_world !! out = None /\
    w_store w' !! 1%positive = Some Stub.tiny /\
    (forall l, l <> out -> w_store w' !! l = w_store stub_store_world !! l) /\
    w_store w' !! out = Some (paint Stub.cv Stub.tiny [stub_detection]) /\
    (exists calls, w_events w' = w_events stub_store_world ++ calls /\
       forall target pt1 pt2 color thickness text org font scale,
         (EvRectangle target pt1 pt2 color thickness ∈ calls ->
          target = out) /\
         (EvPutText target text org font scale color thickness ∈ calls ->
          target = out)).
Proof.
  apply (draw_detection_boxes_leaves_input Stub.cv 1%positive Stub.tiny
           [stub_detection] stub_store_world).
  reflexivity.
Defined.

Lemma stub_draw_changes_only_the_copy :
  paint Stub.cv Stub.tiny [stub_detection] = [[[255; 0; 0]; [7; 7; 7]]] /\
  Stub.tiny = [[[0; 128; 255]; [7; 7; 7]]].
Proof. split; reflexivity. Qed.

Section OverlayLabels.
Context {CS : Type}.
Variable cv : cv2_backend.

(** C9. For every detection the renderer makes three drawing calls on the
  copy, in this order: the outline of the box, two pixels thick, in the
  colour of the class; a filled rectangle (thickness -1) in the same
  colour, as wide and as high as the label text, with its lower left
  corner at the top-left corner of the box; the label, in white, reading
  the class name, [": "], and the confidence with two decimal places.
  The colour of a class is its entry in [DETECTION_COLORS], and (0, 255, 0)
  for a name that has no entry. *)
Theorem overlay_draws_labelled_boxes (image : loc) (dets : list Detection)
  (w : World CS) :
exists (out : loc) (w' : World CS),
  draw_detection_boxes cv image dets w = (Returns out, w') /\
  w_events w' = w_events w ++ flat_map (overlay_calls cv out) dets /\
  (forall det x y bw bh, det ∈ dets -> det_box det = (x, y, bw, bh) ->
     exists text label_w label_h baseline,
       two_decimal_text (det_confidence det) text /\
       getTextSize cv (det_class det +:+ ": " +:+ text)
         cv2.FONT_HERSHEY_SIMPLEX (Float.lit 5 10) 2
         = ((label_w, label_h), baseline) /\
       overlay_calls cv out det =
         [EvRectangle out (x, y) (x + bw, y + bh)
            (overlay_color (det_class det)) 2;
          EvRectangle out (x, y - label_h - 10) (x + label_w, y)
            (overlay_color (det_class det)) (-1);
          EvPutText out (det_class det +:+ ": " +:+ text) (x, y - 5)
            cv2.FONT_HERSHEY_SIMPLEX (Float.lit 5 10) (255, 255, 255) 2]) /\
  (forall name, DETECTION_COLORS !! name = None ->
     overlay_color name = (0, 255, 0)) /\
  (forall name color, DETECTION_COLORS !! name = Some color ->
     overlay_color name = color) /\
  map (fun name => DETECTION_COLORS !! name) CLASS_NAMES =
    [Some (255, 0, 0); Some (0, 255, 0); Some (0, 0, 255);
     Some (255, 255, 0); Some (255, 0, 255)].
Proof.
pose proof (draw_detection_boxes_run cv image dets w) as Hrun.
simpl in Hrun. eexists _, _. split; [exact Hrun |]. simpl.
split_and!.
- reflexivity.
- intros det x y bw bh _ Hbox.
  set (text := Float.format_2f (det_confidence det)).
  destruct (getTextSize cv (det_class det +:+ ": " +:+ text)
              cv2.FONT_HERSHEY_SIMPLEX (Float.lit 5 10) 2)
    as [[label_w label_h] baseline] eqn:Hsize.
  exists text, label_w, label_h, baseline.
  split; [apply format_2f_two_decimals |]. split; [exact Hsize |].
  unfold overlay_calls. rewrite Hbox. fold text. rewrite Hsize. reflexivity.
- intros name Hname. unfold overlay_color. by rewrite Hname.
- intros name color Hname. unfold overlay_color. by rewrite Hname.
- vm_compute. reflexivity.
Qed.

End OverlayLabels.

(** The label of a detection of confidence 0.9. *)
Lemma stub_label :
  make_label "karbohidrat" (Float.lit 9 10) = "karbohidrat: 0.90" /\
  Float.format_2f (Float.lit 125 1000) = "0.12" /\
  Float.format_2f (Float.lit 375 1000) = "0.38" /\
  Float.format_2f (Float.lit 999 1000) = "1.00".
Proof. split_and!; vm_compute; reflexivity. Qed.

(** ** Model loading *)

Section ModelLoading.
Context {CS : Type}.
Variable cv : cv2_backend.

Lemma load_fails (w : World CS) (e : exn) :
w_cache w = None -> w_model_file w = Raises e ->
load_detection_model w =
(Returns None,
 mkWorld (w_classifier w) (w_store w)
   (w_events w ++ [EvStError ("Error loading model: " +:+ exn_msg e)])
   (Some None) (w_model_file w) (w_feed w) (w_camera_held w)).
Proof.
intros Hcache Hfile. destruct w. simpl in *. subst. reflexivity.
Qed.

Lemma load_cached (w : World CS) (v : option (Model CS)) :
w_cache w = Some v -> load_detection_model w = (Returns v, w).
Proof.
intros Hcache. unfold load_detection_model, cache_resource.
by rewrite Hcache.
Qed.

Lemma emit_run (ev : Event) (w : World CS) :
  emit ev w = (Returns tt, with_events w [ev]).
Proof. reflexivity. Qed.

Lemma with_events_app (w : World CS) (a b : list Event) :
  with_events (with_events w a) b = with_events w (a ++ b).
Proof. unfold with_events. simpl. by rewrite app_assoc. Qed.

Lemma with_events_nil (w : World CS) : with_events w [] = w.
Proof. destruct w. unfold with_events. simpl. by rewrite app_nil_r. Qed.

Lemma no_detect_in_messages (new : list Event) :
  Forall (fun ev => match ev with
                    | EvStTitle _ | EvStHeader _ | EvStMarkdown
                    | EvStError _ => True
                    | _ => False
                    end) new ->
  (EvDetect ∉ new) /\ Forall (fun ev => ~ is_camera_event ev) new.
Proof.
  intros H. split.
  - intros Hin. rewrite Forall_forall in H. exact (H _ Hin).
  - eapply Forall_impl; [exact H |]. intros ev. destruct ev; simpl; tauto.
Qed.

(** A run of the script while the cache holds [None]: no detection, no
  camera, and the cache keeps [None]. *)
Lemma script_disabled (inp : Inputs) (w : World CS) :
w_cache w = Some None ->
exists new,
  script cv inp w = (Returns tt, with_events w new) /\
  (EvDetect ∉ new) /\ Forall (fun ev => ~ is_camera_event ev) new.
Proof.
intros Hcache. unfold script.
destruct (String.eqb (selected inp) "Home").
{ unfold page_home, bind. repeat (rewrite emit_run; cbv beta iota).
  rewrite !with_events_app.
  eexists. split; [reflexivity |].
  apply no_detect_in_messages. by repeat constructor. }
destruct (String.eqb (selected inp) "Upload Image").
{ unfold page_upload, bind. rewrite emit_run.
  rewrite load_cached with (v := None) by done.
  rewrite emit_run, with_events_app.
  eexists. split; [reflexivity |].
  apply no_detect_in_messages. by repeat constructor. }
destruct (String.eqb (selected inp) "Live Camera").
{ unfold page_live, bind. rewrite emit_run.
  rewrite load_cached with (v := None) by done.
  rewrite emit_run, with_events_app.
  eexists. split; [reflexivity |].
  apply no_detect_in_messages. by repeat constructor. }
exists []. rewrite with_events_nil.
split; [done |]. split; [apply not_elem_of_nil | constructor].
Qed.

Lemma session_disabled (steps : list (Inputs * outcome (Model CS) * list Image))
  (w : World CS) :
w_cache w = Some None ->
w_cache (session cv steps w) = Some None /\
exists new,
  w_events (session cv steps w) = w_events w ++ new /\
  (EvDetect ∉ new) /\ Forall (fun ev => ~ is_camera_event ev) new.
Proof.
revert w. induction steps as [| [[inp file] feed] steps IH]; intros w Hcache.
- split; [done |]. exists []. rewrite app_nil_r.
  split; [done |]. split; [apply not_elem_of_nil | constructor].
- simpl.
  destruct (script_disabled inp (with_surroundings w file feed) Hcache)
    as (new & Hrun & Hnodet & Hnocam).
  change (mkWorld (w_classifier w) (w_store w) (w_events w) (w_cache w)
            file feed (w_camera_held w))
    with (with_surroundings w file feed).
  rewrite Hrun. simpl.
  destruct (IH (with_events (with_surroundings w file feed) new) Hcache)
    as (Hc & more & Hev & Hnodet' & Hnocam').
  split; [exact Hc |].
  exists (new ++ more). rewrite Hev. simpl. rewrite <- app_assoc.
  split; [done |]. split.
  + intros Hin. apply elem_of_app in Hin as [Hin | Hin]; tauto.
  + by apply Forall_app.
Qed.

(** C6, as the code has it. When [load_model] raises, [load_detection_model]
  raises nothing: it shows ["Error loading model: ..."] and returns
  [None], which [st.cache_resource] keeps. A run of a detection page then
  shows the title, that error and ["Failed to load model. ..."], and in
  all later runs of the session, whatever the inputs, the model file and
  the camera, there is no call of [detect_objects] and no use of the
  camera. *)
Theorem failed_load_disables_detection (w : World CS) (e : exn)
  (inp : Inputs) (feed : list Image)
  (steps : list (Inputs * outcome (Model CS) * list Image)) :
w_cache w = None ->
selected inp = "Upload Image" \/ selected inp = "Live Camera" ->
let w0 := with_surroundings w (Raises e) feed in
let w1 := rerun cv w (inp, Raises e, feed) in
fst (load_detection_model w0) = Returns None /\
w_events (snd (load_detection_model w0)) =
  w_events w ++ [EvStError ("Error loading model: " +:+ exn_msg e)] /\
fst (script cv inp w0) = Returns tt /\
(exists title,
   w_events w1 = w_events w ++
     [EvStTitle title;
      EvStError ("Error loading model: " +:+ exn_msg e);
      EvStError MODEL_FAILED]) /\
w_cache w1 = Some None /\
w_cache (session cv steps w1) = Some None /\
exists later,
  w_events (session cv steps w1) = w_events w1 ++ later /\
  (EvDetect ∉ later) /\ Forall (fun ev => ~ is_camera_event ev) later.
Proof.
intros Hcache Hpage w0 w1.
assert (Hload : forall title,
  load_detection_model (with_events w0 [EvStTitle title]) =
  (Returns None,
   mkWorld (w_classifier w) (w_store w)
     (w_events w ++ [EvStTitle title;
        EvStError ("Error loading model: " +:+ exn_msg e)])
     (Some None) (Raises e) feed (w_camera_held w))).
{ intros title. rewrite (load_fails _ e) by done. simpl.
  by rewrite <- app_assoc. }
assert (Hrun : exists title,
  script cv inp w0 =
  (Returns tt,
   mkWorld (w_classifier w) (w_store w)
     (w_events w ++ [EvStTitle title;
        EvStError ("Error loading model: " +:+ exn_msg e);
        EvStError MODEL_FAILED])
     (Some None) (Raises e) feed (w_camera_held w))).
{ unfold script. destruct Hpage as [-> | ->].
  - exists "Food Image Detection".
    change (String.eqb "Upload Image" "Home") with false.
    change (String.eqb "Upload Image" "Upload Image") with true.
    cbv iota. unfold page_upload, bind. rewrite emit_run, Hload.
    cbv beta iota. rewrite emit_run. unfold with_events. simpl.
    by rewrite <- app_assoc.
  - exists "Live Camera Detection".
    change (String.eqb "Live Camera" "Home") with false.
    change (String.eqb "Live Camera" "Upload Image") with false.
    change (String.eqb "Live Camera" "Live Camera") with true.
    cbv iota. unfold page_live, bind. rewrite emit_run, Hload.
    cbv beta iota. rewrite emit_run. unfold with_events. simpl.
    by rewrite <- app_assoc. }
destruct Hrun as [title Hrun].
assert (Hw1 : w1 = snd (script cv inp w0)) by reflexivity.
rewrite Hrun in Hw1. simpl in Hw1.
split_and!.
- by rewrite (load_fails w0 e).
- by rewrite (load_fails w0 e).
- by rewrite Hrun.
- exists title. by rewrite Hw1.
- by rewrite Hw1.
- apply session_disabled. by rewrite Hw1.
- apply session_disabled. by rewrite Hw1.
Qed.

End ModelLoading.

(** On the stub: the file is missing at the first run of the live page;
    two later runs find the file and a working camera, and still nothing
    is detected. *)
Lemma failed_load_disables_detection_witness :
  let w := stub_missing_world in
  let e := missing_file in
  let w0 := with_surroundings w (Raises e) [Stub.frame] in
  let w1 := rerun Stub.cv w (live_inputs, Raises e, [Stub.frame]) in
  fst (load_detection_model w0) = Returns None /\
  w_events (snd (load_detection_model w0)) =
    w_events w ++ [EvStError ("Error loading model: " +:+ exn_msg e)] /\
  fst (script Stub.cv live_inputs w0) = Returns tt /\
  (exists title,
     w_events w1 = w_events w ++
       [EvStTitle title;
        EvStError ("Error loading model: " +:+ exn_msg e);
        EvStError MODEL_FAILED]) /\
  w_cache w1 = Some None /\
  w_cache (session Stub.cv stub_session w1) = Some None /\
  exists later,
    w_events (session Stub.cv stub_session w1) = w_events w1 ++ later /\
    (EvDetect ∉ later) /\ Forall (fun ev => ~ is_camera_event ev) later.
Proof.
  apply (failed_load_disables_detection Stub.cv stub_missing_world
           missing_file live_inputs [Stub.frame] stub_session).
  - reflexivity.
  - right. reflexivity.
Defined.

(** C6, as the claim words it, fails: with the model file missing the
    loader returns [None] to its caller; no exception leaves it. *)
Lemma failed_load_raises_nothing :
  w_model_file stub_missing_world = Raises missing_file /\
  fst (load_detection_model stub_missing_world) = Returns None /\
  ~ (exists e, fst (load_detection_model stub_missing_world) = Raises e).
Proof.
  split_and!; [reflexivity | reflexivity |].
  intros [e He]. discriminate He.
Qed.

(** ** Live capture *)

Lemma detect_calls_app (a b : list Event) :
  detect_calls (a ++ b) = (detect_calls a + detect_calls b)%nat.
Proof. unfold detect_calls. by rewrite List.filter_app, length_app. Qed.

Lemma detect_calls_overlay (cv : cv2_backend) (out : loc)
    (dets : list Detection) :
  detect_calls (flat_map (overlay_calls cv out) dets) = 0%nat.
Proof.
  induction dets as [| det rest IH]; [done |].
  simpl. rewrite detect_calls_app, IH. unfold overlay_calls.
  destruct (det_box det) as [[[x y] bw] bh].
  by destruct (getTextSize cv _ _ _ _) as [[label_w label_h] baseline].
Qed.

Section LiveCapture.
Context {CS : Type}.
Variable cv : cv2_backend.

Lemma bind_returns {A B} (c : M CS A) (k : A -> M CS B) (w w' : World CS)
  (b : B) :
bind c k w = (Returns b, w') ->
exists a w1, c w = (Returns a, w1) /\ k a w1 = (Returns b, w').
Proof.
unfold bind. destruct (c w) as [[a | e] w1]; [| discriminate].
intros H. by exists a, w1.
Qed.

Lemma extends_trans (w w1 w2 : World CS) (a b : list Event) :
extends w w1 a -> extends w1 w2 b -> extends w w2 (a ++ b).
Proof.
intros (Ha & Hf & Hc) (Hb & Hf' & Hc'). split_and!; try congruence.
rewrite Hb, Ha. by rewrite app_assoc.
Qed.

Lemma detect_regions_extends (image : Image) (model : Model CS)
  (regions : list Rect) (acc : list Detection) (w w' : World CS)
  (r : outcome (list Detection)) :
detect_regions cv image model regions acc w = (r, w') -> extends w w' [].
Proof.
revert acc w.
induction regions as [| [[[x y] w0] h] rest IH]; intros acc w; simpl.
- intros [= _ <-]. split_and!; try done. by rewrite app_nil_r.
- unfold bind, lift, model_predict.
  destruct (preprocess_frame cv _ _) as [t |].
  2: { intros [= _ <-]. split_and!; try done. by rewrite app_nil_r. }
  destruct (predict model _ t) as [res s'].
  set (w1 := mkWorld s' _ _ _ _ _ _).
  assert (Hw1 : extends w w1 []) by (split_and!; try done; by rewrite app_nil_r).
  assert (Hstop : forall e, (Raises e, w1) = (r, w') -> extends w w' []).
  { by intros e [= _ <-]. }
  destruct res as [batch |]; [| apply Hstop].
  destruct (py_index batch 0) as [predictions |]; [| apply Hstop].
  destruct (np.max predictions) as [c |]; [| apply Hstop].
  assert (Hnext : forall acc', detect_regions cv image model rest acc' w1
                    = (r, w') -> extends w w' []).
  { intros acc' H. apply IH in H. apply (extends_trans _ _ _ [] [] Hw1 H). }
  destruct (Float.ge c CONFIDENCE_THRESHOLD); [| apply Hnext].
  destruct (np.argmax predictions) as [idx |]; [| apply Hstop].
  destruct (py_index CLASS_NAMES idx) as [name |]; [| apply Hstop].
  apply Hnext.
Qed.

Lemma detect_objects_extends (image : Image) (model : Model CS)
  (w w' : World CS) (r : outcome (list Detection)) :
detect_objects cv image model w = (r, w') -> extends w w' [EvDetect].
Proof.
unfold detect_objects, bind. rewrite emit_run. unfold lift.
destruct (get_region_proposals cv image) as [regions |].
- intros H. apply detect_regions_extends in H.
  apply (extends_trans w (with_events w [EvDetect]) w' [EvDetect] []);
    [by split_and! | done].
- intros [= _ <-]. by split_and!.
Qed.

Lemma detect_regions_keeps_store (image : Image) (model : Model CS)
  (regions : list Rect) (acc : list Detection) (w w' : World CS)
  (r : outcome (list Detection)) :
detect_regions cv image model regions acc w = (r, w') ->
w_store w' = w_store w.
Proof.
revert acc w.
induction regions as [| [[[x y] w0] h] rest IH]; intros acc w; simpl.
- by intros [= _ <-].
- unfold bind, lift, model_predict.
  destruct (preprocess_frame cv _ _) as [t |]; [| by intros [= _ <-]].
  destruct (predict model _ t) as [res s'].
  assert (Hnext : forall acc' w1, w_store w1 = w_store w ->
            detect_regions cv image model rest acc' w1 = (r, w') ->
            w_store w' = w_store w).
  { intros acc' w1 Hw1 H. apply IH in H. congruence. }
  destruct res as [batch |]; [| by intros [= _ <-]].
  destruct (py_index batch 0) as [predictions |]; [| by intros [= _ <-]].
  destruct (np.max predictions) as [c |]; [| by intros [= _ <-]].
  destruct (Float.ge c CONFIDENCE_THRESHOLD); [| by apply Hnext].
  destruct (np.argmax predictions) as [idx |]; [| by intros [= _ <-]].
  destruct (py_index CLASS_NAMES idx) as [name |]; [| by intros [= _ <-]].
  by apply Hnext.
Qed.

Lemma detect_objects_keeps_store (image : Image) (model : Model CS)
  (w w' : World CS) (r : outcome (list Detection)) :
detect_objects cv image model w = (r, w') -> w_store w' = w_store w.
Proof.
unfold detect_objects, bind. rewrite emit_run. unfold lift.
destruct (get_region_proposals cv image) as [regions |].
- intros H. by apply detect_regions_keeps_store in H.
- by intros [= _ <-].
Qed.

End LiveCapture.

(** ** Steps that leave the camera alone *)

Section QuietSteps.
Context {CS : Type}.
Variable cv : cv2_backend.

Lemma calm_app (a b : list Event) : calm a -> calm b -> calm (a ++ b).
Proof. apply Forall_app_2. Qed.

Lemma quiet_weaken {A} (n m : nat) (c : M CS A) :
(n <= m)%nat -> quiet n c -> quiet m c.
Proof.
intros Hnm Hc w. destruct (Hc w) as (new & ? & ? & ?).
exists new. split_and!; try done. lia.
Qed.

Lemma quiet_ret {A} (a : A) : quiet 0 (ret (CS := CS) a).
Proof.
intros w. exists []. split_and!; try done; [| constructor].
split_and!; try done. simpl. by rewrite app_nil_r.
Qed.

Lemma quiet_lift {A} (o : outcome A) : quiet 0 (lift (CS := CS) o).
Proof.
intros w. exists []. split_and!; try done; [| constructor].
split_and!; try done. simpl. by rewrite app_nil_r.
Qed.

Lemma quiet_emit (ev : Event) :
~ is_camera_event ev -> is_detect ev = false -> quiet 0 (emit (CS := CS) ev).
Proof.
intros Hcam Hdet w. exists [ev]. split_and!.
- by split_and!.
- by constructor.
- unfold detect_calls. simpl. by rewrite Hdet.
Qed.

Lemma quiet_bind {A B} (n1 n2 : nat) (c : M CS A) (k : A -> M CS B) :
quiet n1 c -> (forall a, quiet n2 (k a)) -> quiet (n1 + n2) (bind c k).
Proof.
intros Hc Hk w. destruct (Hc w) as (new1 & Hext1 & Hcalm1 & Hn1).
unfold bind. destruct (c w) as [[a | e] w1]; simpl in *.
- destruct (Hk a w1) as (new2 & Hext2 & Hcalm2 & Hn2).
  exists (new1 ++ new2). split_and!.
  + by eapply extends_trans.
  + by apply calm_app.
  + rewrite detect_calls_app. lia.
- exists new1. split_and!; try done. lia.
Qed.

Lemma quiet_new_array (a : Image) : quiet 0 (new_array (CS := CS) a).
Proof.
intros w. exists []. split_and!; try done; [| constructor].
split_and!; try done. simpl. by rewrite app_nil_r.
Qed.

Lemma quiet_read_array (l : loc) : quiet 0 (read_array (CS := CS) l).
Proof.
intros w. exists []. split_and!; try done; [| constructor].
split_and!; try done. simpl. by rewrite app_nil_r.
Qed.

Lemma quiet_load : quiet 0 (load_detection_model (CS := CS)).
Proof.
intros [s st evs [v0 |] [m | e] feed held]; simpl.
1-3: exists []; split_and!; try done; [| constructor];
     split_and!; try done; simpl; by rewrite app_nil_r.
exists [EvStError ("Error loading model: " +:+ exn_msg e)].
split_and!; try done. constructor; [intros [] | constructor].
Qed.

Lemma quiet_detect (image : Image) (model : Model CS) :
quiet 1 (detect_objects cv image model).
Proof.
intros w. exists [EvDetect].
destruct (detect_objects cv image model w) as [r w'] eqn:H.
apply detect_objects_extends in H. split_and!.
- exact H.
- constructor; [intros [] | constructor].
- reflexivity.
Qed.

Lemma calm_overlay (out : loc) (dets : list Detection) :
calm (flat_map (overlay_calls cv out) dets).
Proof.
induction dets as [| det rest IH]; [constructor |].
simpl. apply calm_app; [| done]. unfold overlay_calls.
destruct (det_box det) as [[[x y] bw] bh].
destruct (getTextSize cv _ _ _ _) as [[label_w label_h] baseline].
repeat (constructor; [intros [] |]). constructor.
Qed.

Lemma quiet_draw (image : loc) (dets : list Detection) :
quiet 0 (draw_detection_boxes (CS := CS) cv image dets).
Proof.
intros w. rewrite draw_detection_boxes_run. simpl.
eexists. split_and!.
- by split_and!.
- apply calm_overlay.
- by rewrite detect_calls_overlay.
Qed.

Lemma quiet_for_each {A} (l : list A) (body : A -> M CS unit) :
(forall a, quiet 0 (body a)) -> quiet 0 (for_each l body).
Proof.
intros Hbody. induction l as [| a l IH]; simpl.
- apply quiet_ret.
- apply (quiet_bind 0 0); [apply Hbody | by intros _].
Qed.

End QuietSteps.

Ltac quiet_event := apply quiet_emit; [intros [] | reflexivity].

(** ** The capture loop and the device *)

Lemma calm_unreleased (new : list Event) :
  calm new -> existsb is_release new = false.
Proof.
  induction 1 as [| ev rest Hev _ IH]; [done |].
  simpl. rewrite IH. by destruct ev; try done; destruct Hev.
Qed.

Section Unreleased.
Context {CS : Type}.

Lemma unreleased_quiet {A} (n : nat) (c : M CS A) : quiet n c -> unreleased c.
Proof.
intros Hc w. destruct (Hc w) as (new & (Hev & _ & Hheld) & Hcalm & _).
split; [done |]. exists new. split; [done |]. by apply calm_unreleased.
Qed.

Lemma unreleased_bind {A B} (c : M CS A) (k : A -> M CS B) :
unreleased c -> (forall a, unreleased (k a)) -> unreleased (bind c k).
Proof.
intros Hc Hk w. destruct (Hc w) as (Hheld1 & new1 & Hev1 & Hrel1).
unfold bind. destruct (c w) as [[a | e] w1]; simpl in *.
- destruct (Hk a w1) as (Hheld2 & new2 & Hev2 & Hrel2).
  split; [congruence |]. exists (new1 ++ new2). split.
  + by rewrite Hev2, Hev1, app_assoc.
  + by rewrite existsb_app, Hrel1, Hrel2.
- split; [done |]. by exists new1.
Qed.

Lemma unreleased_camera_read : unreleased (camera_read (CS := CS)).
Proof.
intros w. unfold camera_read.
destruct (w_feed w); simpl; (split; [done |]); by eexists [_].
Qed.

Lemma bind_run {A B} (c : M CS A) (k : A -> M CS B) (w w1 : World CS) (a : A) :
c w = (Returns a, w1) -> bind c k w = k a w1.
Proof. unfold bind. by intros ->. Qed.

Lemma bind_raises {A B} (c : M CS A) (k : A -> M CS B) (w w1 : World CS)
  (e : exn) :
c w = (Raises e, w1) -> bind c k w = (Raises e, w1).
Proof. unfold bind. by intros ->. Qed.

Lemma new_array_run (a : Image) (w : World CS) :
new_array a w =
(Returns (fresh (dom (w_store w))),
 mkWorld (w_classifier w) (<[fresh (dom (w_store w)) := a]> (w_store w))
   (w_events w) (w_cache w) (w_model_file w) (w_feed w) (w_camera_held w)).
Proof. reflexivity. Qed.

Lemma read_array_run (l : loc) (w : World CS) :
read_array l w = (Returns (w_store w !!! l), w).
Proof. reflexivity. Qed.

End Unreleased.

Section CaptureLoop.
Context {CS : Type}.
Variable cv : cv2_backend.
Variable model : Model CS.

Lemma new_array_extends (a : Image) (w w1 : World CS) (r : outcome loc) :
new_array a w = (r, w1) -> extends w w1 [].
Proof.
intros [= _ <-]. split_and!; try done. simpl. by rewrite app_nil_r.
Qed.

Lemma read_array_same (l : loc) (w w1 : World CS) (r : outcome Image) :
read_array l w = (r, w1) -> w1 = w.
Proof. by intros [= _ <-]. Qed.

Lemma draw_detection_boxes_extends (image : loc) (dets : list Detection)
  (w w1 : World CS) (r : outcome loc) :
draw_detection_boxes cv image dets w = (r, w1) ->
exists new, extends w w1 new /\ detect_calls new = 0%nat.
Proof.
rewrite draw_detection_boxes_run. intros [= _ <-].
eexists. split; [by split_and! |]. apply detect_calls_overlay.
Qed.

(** The loop, when it returns, has come to a failed read: the last effects
  are that read and the error message. Until then it has called
  [detect_objects] once for every frame of the feed. *)
Lemma capture_loop_exit (fuel : nat) (w w' : World CS) :
(length (w_feed w) < fuel)%nat ->
capture_loop cv fuel model w = (Returns tt, w') ->
exists before,
  w_events w' = w_events w ++ before ++
                  [EvCameraRead false; EvStError "Failed to access camera"] /\
  w_camera_held w' = w_camera_held w /\
  detect_calls before = length (w_feed w).
Proof.
revert w. induction fuel as [| fuel IH]; intros w Hfuel Hrun; [lia |].
simpl in Hrun. apply bind_returns in Hrun as (r & w0 & Hread & Hrun).
unfold camera_read in Hread.
destruct (w_feed w) as [| frame rest] eqn:Hfeed.
- injection Hread as <- <-. rewrite emit_run in Hrun. injection Hrun as <-.
  exists []. simpl. rewrite <- app_assoc. by split_and!.
- injection Hread as <- <-.
  apply bind_returns in Hrun as (l & w1 & H1 & Hrun).
  apply bind_returns in Hrun as (px & w2 & H2 & Hrun).
  apply bind_returns in Hrun as (ds & w3 & H3 & Hrun).
  apply bind_returns in Hrun as (l2 & w4 & H4 & Hrun).
  apply bind_returns in Hrun as (opx & w5 & H5 & Hrun).
  apply bind_returns in Hrun as (rgb & w6 & H6 & Hrun).
  apply bind_returns in Hrun as (u7 & w7 & H7 & Hrun).
  apply bind_returns in Hrun as (u8 & w8 & H8 & Hrun).
  apply new_array_extends in H1.
  apply read_array_same in H2. subst w2.
  apply detect_objects_extends in H3.
  apply draw_detection_boxes_extends in H4 as (drawn & H4 & Hdrawn).
  apply read_array_same in H5. subst w5.
  injection H6 as _ <-.
  rewrite emit_run in H7. injection H7 as _ <-.
  rewrite emit_run, with_events_app in H8. injection H8 as _ <-.
  pose proof (extends_trans _ _ _ _ _ (extends_trans _ _ _ _ _ H1 H3) H4)
    as (Hev & Hfeed4 & Hheld4).
  simpl in Hev, Hfeed4, Hheld4.
  apply IH in Hrun as (before & Hev' & Hheld' & Hcount).
  2: { simpl. rewrite Hfeed4. simpl in Hfuel. lia. }
  simpl in Hev', Hheld', Hcount.
  rewrite Hfeed4 in Hcount. rewrite Hheld4 in Hheld'.
  exists ([EvCameraRead true; EvDetect] ++ drawn ++
          [EvStImage rgb ""; EvSleep] ++ before).
  split_and!.
  + rewrite Hev', Hev. rewrite <- !app_assoc. reflexivity.
  + exact Hheld'.
  + rewrite !detect_calls_app, Hdrawn, Hcount. reflexivity.
Qed.

Lemma load_available (w : World CS) :
model_available w model ->
exists w1, load_detection_model w = (Returns (Some model), w1) /\
  extends w w1 [].
Proof.
intros [Hc | [Hc Hf]].
- exists w. rewrite (load_cached w (Some model) Hc).
  split; [done |]. split_and!; try done. by rewrite app_nil_r.
- destruct w. simpl in *. subst. eexists. split; [reflexivity |].
  split_and!; try done. simpl. by rewrite app_nil_r.
Qed.

(** However a run of the loop ends, it has not released the device. *)
Lemma capture_loop_unreleased (fuel : nat) :
unreleased (capture_loop cv fuel model).
Proof.
induction fuel as [| fuel IH]; simpl.
- apply (unreleased_quiet 0), quiet_ret.
- apply unreleased_bind; [apply unreleased_camera_read |].
  intros [[|] [frame_px |]];
    try (apply (unreleased_quiet 0); quiet_event).
  apply unreleased_bind; [apply (unreleased_quiet 0), quiet_new_array |].
  intros frame.
  apply unreleased_bind; [apply (unreleased_quiet 0), quiet_read_array |].
  intros px.
  apply unreleased_bind; [apply (unreleased_quiet 1), quiet_detect |].
  intros detections.
  apply unreleased_bind; [apply (unreleased_quiet 0), quiet_draw |].
  intros frame_with_detections.
  apply unreleased_bind; [apply (unreleased_quiet 0), quiet_read_array |].
  intros out_px.
  apply unreleased_bind; [apply (unreleased_quiet 0), quiet_lift |].
  intros frame_rgb.
  apply unreleased_bind; [apply (unreleased_quiet 0); quiet_event |].
  intros _.
  apply unreleased_bind; [apply (unreleased_quiet 0); quiet_event |].
  intros _. exact IH.
Qed.

(** The loop returns when no round raises: each round takes a frame from
  the feed, and the read after the last frame fails. *)
Lemma capture_loop_returns (fuel : nat) (w : World CS) :
(length (w_feed w) < fuel)%nat ->
(forall frame, frame ∈ w_feed w -> round_returns cv model frame) ->
exists w', capture_loop cv fuel model w = (Returns tt, w').
Proof.
revert w. induction fuel as [| fuel IH]; intros w Hfuel Hok; [lia |].
cbn [capture_loop].
destruct (w_feed w) as [| frame rest] eqn:Hfeed.
- erewrite bind_run; [| unfold camera_read; rewrite Hfeed; reflexivity].
  by eexists.
- erewrite bind_run; [| unfold camera_read; rewrite Hfeed; reflexivity].
  cbv beta iota.
  destruct (Hok frame) as [Hdet Hcvt]; [apply list_elem_of_here |].
  erewrite bind_run; [| apply new_array_run]. cbv beta.
  erewrite bind_run; [| apply read_array_run]. cbv beta.
  cbn [w_classifier w_store w_events w_cache w_model_file w_feed
       w_camera_held].
  rewrite lookup_total_insert_eq.
  match goal with |- context [bind (detect_objects cv frame model) _ ?w2] =>
    destruct (Hdet w2) as [ds Hds];
    destruct (detect_objects cv frame model w2) as [r w3] eqn:H3
  end.
  simpl in Hds. subst r.
  pose proof (detect_objects_keeps_store _ _ _ _ _ _ H3) as Hstore.
  pose proof (detect_objects_extends _ _ _ _ _ _ H3) as (_ & Hfeed3 & _).
  cbn [w_store w_feed] in Hstore, Hfeed3.
  erewrite bind_run; [| exact H3]. cbv beta.
  erewrite bind_run; [| apply draw_detection_boxes_run]. cbv beta.
  erewrite bind_run; [| apply read_array_run]. cbv beta.
  cbn [w_store]. rewrite lookup_total_insert_eq, Hstore, lookup_total_insert_eq.
  destruct (Hcvt ds) as [rgb Hrgb].
  erewrite bind_run; [| unfold lift; rewrite Hrgb; reflexivity]. cbv beta.
  erewrite bind_run; [| apply emit_run].
  erewrite bind_run; [| apply emit_run].
  apply IH.
  + cbn [w_feed with_events]. rewrite Hfeed3. simpl in Hfuel. lia.
  + cbn [w_feed with_events]. rewrite Hfeed3. intros f Hf. apply Hok.
    by apply list_elem_of_further.
Qed.

(** An exception of the pipeline on the first frame leaves the loop. *)
Lemma capture_loop_raises (fuel : nat) (w : World CS) (frame : Image)
  (rest : list Image) (e : exn) :
w_feed w = frame :: rest ->
(forall w0, fst (detect_objects cv frame model w0) = Raises e) ->
exists w', capture_loop cv (S fuel) model w = (Raises e, w').
Proof.
intros Hfeed Hdet. cbn [capture_loop].
erewrite bind_run; [| unfold camera_read; rewrite Hfeed; reflexivity].
cbv beta iota.
erewrite bind_run; [| apply new_array_run]. cbv beta.
erewrite bind_run; [| apply read_array_run]. cbv beta.
cbn [w_classifier w_store w_events w_cache w_model_file w_feed
     w_camera_held].
rewrite lookup_total_insert_eq.
match goal with |- context [bind (detect_objects cv frame model) _ ?w2] =>
  pose proof (Hdet w2) as Hr;
  destruct (detect_objects cv frame model w2) as [r w3] eqn:H3
end.
simpl in Hr. subst r. exists w3. by apply bind_raises.
Qed.

(** The page up to the loop: title, model, placeholder, open device. *)
Lemma page_live_run (inp : Inputs) (w : World CS) :
model_available w model ->
exists w0,
  page_live cv inp w =
    bind (if start_camera inp
          then fun w => capture_loop cv (S (length (w_feed w))) model w
          else ret tt)
      (fun _ => camera_release) w0 /\
  w_events w0 = w_events w ++
    [EvStTitle "Live Camera Detection"; EvStImage [] ""; EvCameraOpen] /\
  w_feed w0 = w_feed w /\ w_camera_held w0 = true.
Proof.
intros Havail.
assert (Havail' : model_available
          (with_events w [EvStTitle "Live Camera Detection"]) model)
  by exact Havail.
destruct (load_available _ Havail') as (w1 & Hload & Hev1 & Hfeed1 & Hheld1).
simpl in Hev1, Hfeed1, Hheld1. rewrite app_nil_r in Hev1.
exists (mkWorld (w_classifier w1) (w_store w1)
         (w_events w ++ [EvStTitle "Live Camera Detection"; EvStImage [] "";
                         EvCameraOpen])
         (w_cache w1) (w_model_file w1) (w_feed w) true).
split; [| done].
unfold page_live. unfold bind at 1. rewrite emit_run.
unfold bind at 1. rewrite Hload.
unfold bind at 1. rewrite emit_run.
unfold bind at 1. unfold camera_open. simpl.
rewrite Hev1, Hfeed1, <- !app_assoc. reflexivity.
Qed.

(** C7. With the model at hand, the live page releases the camera exactly
  on the runs that raise nothing. A run that returns has released the
  device as its last effect, and at no time before: at once when the run
  flag is off, and after the failed read and its error message when the
  flag is on, with one call of [detect_objects] for each frame read. A
  run that raises had the flag on and ends with the device held and no
  release. The page returns when the flag is off, when the first read
  fails (then without any call of [detect_objects]), and whenever no
  round of the loop raises; it raises when [detect_objects] raises on the
  first frame. *)
Theorem live_capture_releases_camera (inp : Inputs) (w : World CS) :
model_available w model ->
(forall o w', page_live cv inp w = (o, w') ->
   match o with
   | Returns _ =>
       w_camera_held w' = false /\
       exists before,
         w_events w' = w_events w ++ before ++ [EvCameraRelease] /\
         existsb is_release before = false /\
         (start_camera inp = true ->
          exists rounds,
            before = [EvStTitle "Live Camera Detection"; EvStImage [] "";
                      EvCameraOpen] ++ rounds ++
                     [EvCameraRead false; EvStError CAMERA_FAILED] /\
            detect_calls rounds = length (w_feed w))
   | Raises _ =>
       start_camera inp = true /\
       w_camera_held w' = true /\
       exists effects,
         w_events w' = w_events w ++ effects /\
         existsb is_release effects = false
   end) /\
(start_camera inp = false ->
   exists w', page_live cv inp w = (Returns tt, w') /\
     w_camera_held w' = false /\
     w_events w' = w_events w ++
       [EvStTitle "Live Camera Detection"; EvStImage [] "";
        EvCameraOpen; EvCameraRelease]) /\
(start_camera inp = true -> w_feed w = [] ->
   exists w', page_live cv inp w = (Returns tt, w') /\
     w_camera_held w' = false /\
     w_events w' = w_events w ++
       [EvStTitle "Live Camera Detection"; EvStImage [] "";
        EvCameraOpen; EvCameraRead false; EvStError CAMERA_FAILED;
        EvCameraRelease] /\
     detect_calls [EvStTitle "Live Camera Detection"; EvStImage [] "";
        EvCameraOpen; EvCameraRead false; EvStError CAMERA_FAILED;
        EvCameraRelease] = 0%nat) /\
(start_camera inp = true ->
 (forall frame, frame ∈ w_feed w -> round_returns cv model frame) ->
   exists w' rounds, page_live cv inp w = (Returns tt, w') /\
     w_camera_held w' = false /\
     w_events w' = w_events w ++
       [EvStTitle "Live Camera Detection"; EvStImage [] ""; EvCameraOpen] ++
       rounds ++
       [EvCameraRead false; EvStError CAMERA_FAILED; EvCameraRelease] /\
     detect_calls rounds = length (w_feed w)) /\
(start_camera inp = true ->
 forall frame rest e, w_feed w = frame :: rest ->
 (forall w0, fst (detect_objects cv frame model w0) = Raises e) ->
   exists w', page_live cv inp w = (Raises e, w')).
Proof.
intros Havail.
destruct (page_live_run inp w Havail) as (w0 & Hpage & Hev0 & Hfeed0 & Hheld0).
rewrite Hpage. clear Hpage. split_and!.
- intros o w' Hrun.
  match type of Hrun with bind ?c _ _ = _ =>
    remember c as loop eqn:Hc
  end.
  assert (Hun : unreleased loop).
  { subst loop. destruct (start_camera inp).
    - intros w2. apply capture_loop_unreleased.
    - apply (unreleased_quiet 0), quiet_ret. }
  destruct (Hun w0) as (Hheld & new & Hev & Hrel).
  unfold bind in Hrun.
  destruct (loop w0) as [[[] | e] w2] eqn:Hloop; simpl in Hheld, Hev;
    rewrite Hc in Hloop.
  + unfold camera_release in Hrun. injection Hrun as <- <-. simpl.
    split; [done |].
    exists ([EvStTitle "Live Camera Detection"; EvStImage [] "";
             EvCameraOpen] ++ new).
    split_and!.
    * rewrite Hev, Hev0, <- !app_assoc. reflexivity.
    * exact Hrel.
    * intros Hon. rewrite Hon in Hloop.
      apply capture_loop_exit in Hloop
        as (rounds & Hev' & _ & Hcount); [| lia].
      rewrite Hev in Hev'. apply app_inv_head in Hev'. subst new.
      exists rounds. split; [done |]. by rewrite Hcount, Hfeed0.
  + injection Hrun as <- <-. split_and!.
    * destruct (start_camera inp); [done | discriminate].
    * by rewrite Hheld.
    * exists ([EvStTitle "Live Camera Detection"; EvStImage [] "";
               EvCameraOpen] ++ new).
      split; [| exact Hrel]. by rewrite Hev, Hev0, <- !app_assoc.
- intros ->. eexists. split; [reflexivity |]. simpl.
  split; [done |]. by rewrite Hev0, <- !app_assoc.
- intros -> Hfeed. rewrite Hfeed in Hfeed0.
  cbn [capture_loop]. unfold bind, camera_read. rewrite Hfeed0.
  eexists. split; [reflexivity |]. simpl.
  split; [done |]. split; [| done]. by rewrite Hev0, <- !app_assoc.
- intros -> Hok.
  destruct (capture_loop_returns (S (length (w_feed w0))) w0)
    as [w2 Hloop]; [lia | by rewrite Hfeed0 |].
  pose proof Hloop as Hexit.
  apply capture_loop_exit in Hexit
    as (rounds & Hev & _ & Hcount); [| lia].
  erewrite bind_run; [| exact Hloop]. unfold camera_release.
  eexists. exists rounds. split; [reflexivity |]. simpl.
  split; [done |]. split; [| by rewrite Hcount, Hfeed0].
  rewrite Hev, Hev0, <- !app_assoc. reflexivity.
- intros -> frame rest e Hfeed Hdet. rewrite Hfeed in Hfeed0.
  destruct (capture_loop_raises (length (w_feed w0)) w0 frame rest e
              Hfeed0 Hdet) as [w2 Hloop].
  exists w2. by apply bind_raises.
Qed.

End CaptureLoop.

(** On the stub, with no frame to read: the first read fails. *)
Lemma live_capture_releases_camera_witness :
  model_available Stub.world Stub.model /\
  exists w', page_live Stub.cv live_inputs Stub.world = (Returns tt, w') /\
    w_camera_held w' = false /\
    w_events w' = w_events Stub.world ++
      [EvStTitle "Live Camera Detection"; EvStImage [] "";
       EvCameraOpen; EvCameraRead false; EvStError CAMERA_FAILED;
       EvCameraRelease] /\
    detect_calls [EvStTitle "Live Camera Detection"; EvStImage [] "";
       EvCameraOpen; EvCameraRead false; EvStError CAMERA_FAILED;
       EvCameraRelease] = 0%nat.
Proof.
  assert (H : model_available Stub.world Stub.model)
    by (right; split; reflexivity).
  split; [exact H |].
  destruct (live_capture_releases_camera Stub.cv Stub.model live_inputs
              Stub.world H) as (_ & _ & Hfail & _).
  apply Hfail; reflexivity.
Defined.

(** With one frame in the feed the page detects once, then the second read
    fails and the camera is released. *)
Lemma live_capture_one_frame :
  let run := page_live Stub.cv live_inputs stub_one_frame_world in
  fst run = Returns tt /\
  detect_calls (w_events (snd run)) = 1%nat /\
  last (w_events (snd run)) = Some EvCameraRelease /\
  w_camera_held (snd run) = false.
Proof. cbv zeta. split_and!; reflexivity. Qed.

(** An exit of the loop that is neither of the two: the classifier raises
    on the first frame, and the page leaves with that exception before
    [camera.release()], the device still held. *)
Lemma live_capture_exception_keeps_camera :
  let run := page_live Stub.cv live_inputs stub_failing_model_world in
  model_available stub_failing_model_world failing_model /\
  start_camera live_inputs = true /\
  fst run = Raises (Exn "RuntimeError" "predict failed") /\
  w_events (snd run) =
    [EvStTitle "Live Camera Detection"; EvStImage [] ""; EvCameraOpen;
     EvCameraRead true; EvDetect] /\
  existsb is_release (w_events (snd run)) = false /\
  w_camera_held (snd run) = true.
Proof. cbv zeta. split_and!; [by left | reflexivity..]. Qed.

(** ** The pipeline returns *)

Lemma argmax_from_bounds (rest : list spec_float) (i : Z) (mp : spec_float)
    (max_ind : Z) :
  0 <= max_ind < i ->
  0 <= np.argmax_from rest i mp max_ind < i + Z.of_nat (length rest).
Proof.
  revert i mp max_ind.
  induction rest as [| x rest IH]; intros i mp max_ind Hi; simpl.
  - lia.
  - destruct (Float.le x mp).
    + specialize (IH (i + 1) mp max_ind ltac:(lia)). lia.
    + destruct (Float.is_nan x); [lia |].
      specialize (IH (i + 1) x i ltac:(lia)). lia.
Qed.

Lemma argmax_bounds (a : list spec_float) :
  a <> [] ->
  exists i, np.argmax a = Returns i /\ 0 <= i < Z.of_nat (length a).
Proof.
  destruct a as [| x rest]; [done |]. intros _. simpl.
  eexists. split; [reflexivity |].
  destruct (Float.is_nan x); [lia |].
  pose proof (argmax_from_bounds rest 1 x 0 ltac:(lia)). lia.
Qed.

Lemma py_index_in_range {A} (l : list A) (i : Z) :
  0 <= i < Z.of_nat (length l) -> exists a, py_index l i = Returns a.
Proof.
  intros Hi. unfold py_index.
  destruct (Z.ltb_spec i 0) as [? | _]; [lia |].
  destruct (Z.leb_spec 0 i) as [_ | ?]; [| lia].
  destruct (l !! Z.to_nat i) as [a |] eqn:Hl; [by exists a |].
  apply lookup_ge_None in Hl. lia.
Qed.

Section PipelineReturns.
Context {CS : Type}.
Variable cv : cv2_backend.
Variable image : Image.
Variable model : Model CS.
Hypothesis model_ok : five_scores model.

Lemma detect_regions_returns (regions : list Rect) (acc : list Detection)
  (w : World CS) :
(forall r, r ∈ regions ->
   exists t, preprocess_frame cv (crop image r) default_target_size
             = Returns t) ->
exists ds w', detect_regions cv image model regions acc w = (Returns ds, w').
Proof.
revert acc w.
induction regions as [| [[[x y] w0] h] rest IH]; intros acc w Hcrop.
- by eexists _, _.
- simpl. unfold bind, lift, model_predict.
  destruct (Hcrop (x, y, w0, h) (list_elem_of_here _ _)) as [t Ht].
  simpl in Ht. rewrite Ht.
  destruct (model_ok (w_classifier w) t)
    as (batch & scores & s' & -> & Hrow & Hlen).
  rewrite (py_index_first _ _ Hrow).
  assert (Hne : scores <> []) by (by destruct scores).
  destruct scores as [| c0 more]; [done |].
  change (np.max (c0 :: more))
    with (Returns (A := spec_float) (fold_left np.maximum more c0)).
  cbv beta iota.
  assert (Hrest : forall r, r ∈ rest ->
            exists t, preprocess_frame cv (crop image r) default_target_size
                      = Returns t).
  { intros r Hr. apply Hcrop. by apply list_elem_of_further. }
  destruct (Float.ge (fold_left np.maximum more c0) CONFIDENCE_THRESHOLD)
      eqn:Hge; [| exact (IH _ _ Hrest)].
  destruct (argmax_bounds (c0 :: more) Hne) as (idx & -> & Hidx).
  destruct (py_index_in_range CLASS_NAMES idx) as [name ->].
  { rewrite Hlen in Hidx. exact Hidx. }
  exact (IH _ _ Hrest).
Qed.

(** With a classifier that gives five scores, on a frame whose proposed
  regions can all be preprocessed, [detect_objects] returns. *)
Lemma detect_objects_returns (regions : list Rect) (w : World CS) :
get_region_proposals cv image = Returns regions ->
(forall r, r ∈ regions ->
   exists t, preprocess_frame cv (crop image r) default_target_size
             = Returns t) ->
exists ds w', detect_objects cv image model w = (Returns ds, w').
Proof.
intros Hreg Hcrop. unfold detect_objects, bind, lift, emit.
rewrite Hreg. by apply detect_regions_returns.
Qed.

End PipelineReturns.

(** On the stub, a round of the capture loop on the frame raises nothing. *)
Lemma stub_round_returns : round_returns Stub.cv Stub.model Stub.frame.
Proof.
  split.
  - intros w0.
    destruct (detect_objects_returns Stub.cv Stub.frame Stub.model)
      with (regions := [(0, 0, 60, 60)]) (w := w0) as (ds & w' & Hrun).
    + intros s t. exists [Stub.scores], Stub.scores, (S s).
      split_and!; reflexivity.
    + reflexivity.
    + intros r Hr. apply list_elem_of_singleton in Hr as ->.
      eexists. reflexivity.
    + exists ds. by rewrite Hrun.
  - intros ds. eexists. reflexivity.
Qed.

(** Uniform scores of 0.2 never reach the threshold. *)
Lemma uniform_scores_detect_nothing :
  fst (detect_objects Stub.cv Stub.frame Stub.uniform Stub.world) = Returns [].
Proof. reflexivity. Qed.

(** * Further properties of the program *)

(** ** The order on floats behind [np.max] and [np.argmax] *)

Lemma cmp_finite_scaled (m1 e1 m2 e2 k : Z) :
  k <= e1 -> k <= e2 ->
  Float.cmp_finite m1 e1 m2 e2 =
  Z.compare (m1 * 2 ^ (e1 - k)) (m2 * 2 ^ (e2 - k)).
Proof.
  intros H1 H2. unfold Float.cmp_finite, Float.align.
  set (e := Z.min e1 e2).
  assert (He : k <= e) by (unfold e; lia).
  assert (He1 : e <= e1) by (unfold e; lia).
  assert (He2 : e <= e2) by (unfold e; lia).
  replace (e1 - k) with ((e1 - e) + (e - k)) by lia.
  replace (e2 - k) with ((e2 - e) + (e - k)) by lia.
  rewrite !Z.pow_add_r, !Z.mul_assoc by lia.
  assert (Hc : 0 < 2 ^ (e - k)) by (apply Z.pow_pos_nonneg; lia).
  destruct (Z.compare_spec (m1 * 2 ^ (e1 - e)) (m2 * 2 ^ (e2 - e)));
    symmetry.
  - apply Z.compare_eq_iff. nia.
  - apply Z.compare_lt_iff. nia.
  - apply Z.compare_gt_iff. nia.
Qed.

Lemma compare_real (x y : spec_float) (k : Z) :
  is_real x -> is_real y -> k <= float_exp x -> k <= float_exp y ->
  Float.compare x y =
  Some (Z.compare (float_num x * 2 ^ (float_exp x - k))
                  (float_num y * 2 ^ (float_exp y - k))).
Proof.
  destruct x as [sx | sx | | sx mx ex], y as [sy | sy | | sy my ey];
    try done; cbn -[Z.compare Z.mul Z.pow Z.sub]; intros _ _ Hx Hy.
  - assert (0 < 2 ^ (ey - k)) by (apply Z.pow_pos_nonneg; lia).
    f_equal. symmetry. destruct sy; cbn -[Z.compare Z.mul Z.pow Z.sub].
    + apply Z.compare_gt_iff. nia.
    + apply Z.compare_lt_iff. nia.
  - assert (0 < 2 ^ (ex - k)) by (apply Z.pow_pos_nonneg; lia).
    f_equal. symmetry. destruct sx; cbn -[Z.compare Z.mul Z.pow Z.sub].
    + apply Z.compare_lt_iff. nia.
    + apply Z.compare_gt_iff. nia.
  - f_equal. by apply cmp_finite_scaled.
Qed.

Lemma compare_antisym (x y : spec_float) :
  Float.compare y x = CompOpp <$> Float.compare x y.
Proof.
  destruct x as [sx | sx | | sx mx ex], y as [sy | sy | | sy my ey];
    simpl; try done;
    try (by destruct sx); try (by destruct sy);
    try (by destruct sx, sy).
  f_equal. unfold Float.cmp_finite. rewrite (Z.min_comm ey ex).
  apply Z.compare_antisym.
Qed.

Lemma ge_is_le (x y : spec_float) : Float.ge x y = Float.le y x.
Proof.
  unfold Float.ge, Float.le. rewrite (compare_antisym x y).
  by destruct (Float.compare x y) as [[] |].
Qed.

Lemma le_not_nan (x y : spec_float) :
  Float.le x y = true -> Float.is_nan x = false /\ Float.is_nan y = false.
Proof. by destruct x, y. Qed.

Lemma le_total (x y : spec_float) :
  Float.is_nan x = false -> Float.is_nan y = false ->
  Float.le x y = false -> Float.le y x = true.
Proof.
  intros Hx Hy. unfold Float.le. rewrite (compare_antisym x y).
  destruct (Float.compare x y) as [[] |] eqn:Hc; try done.
  by destruct x, y.
Qed.

Lemma le_real_iff (x y : spec_float) (k : Z) :
  is_real x -> is_real y -> k <= float_exp x -> k <= float_exp y ->
  Float.le x y = true <->
  float_num x * 2 ^ (float_exp x - k) <= float_num y * 2 ^ (float_exp y - k).
Proof.
  intros Hx Hy Hkx Hky. unfold Float.le.
  rewrite (compare_real x y k) by done.
  destruct (Z.compare_spec (float_num x * 2 ^ (float_exp x - k))
              (float_num y * 2 ^ (float_exp y - k))); split; try done; lia.
Qed.

Lemma le_real_trans (x y z : spec_float) :
  is_real x -> is_real y -> is_real z ->
  Float.le x y = true -> Float.le y z = true -> Float.le x z = true.
Proof.
  intros Hx Hy Hz.
  set (k := Z.min (float_exp x) (Z.min (float_exp y) (float_exp z))).
  rewrite (le_real_iff x y k), (le_real_iff y z k), (le_real_iff x z k)
    by (try done; unfold k; lia).
  lia.
Qed.

Lemma le_trans (x y z : spec_float) :
  Float.le x y = true -> Float.le y z = true -> Float.le x z = true.
Proof.
  destruct x as [sx | [|] | | sx mx ex], y as [sy | [|] | | sy my ey],
           z as [sz | [|] | | sz mz ez];
    try done;
    try (by apply le_real_trans);
    try (simpl; by destruct sx); try (simpl; by destruct sy);
    try (simpl; by destruct sz).
Qed.

Lemma le_refl (x : spec_float) : Float.is_nan x = false -> Float.le x x = true.
Proof.
  destruct x as [s | [|] | | s m e]; try done. intros _.
  unfold Float.le, Float.compare, Float.cmp_finite.
  by rewrite Z.compare_refl.
Qed.

(** ** [np.max] and [np.argmax] *)

Lemma maximum_nan_l (x : spec_float) : np.maximum S754_nan x = S754_nan.
Proof. by destruct x. Qed.

Lemma fold_maximum_nan (rest : list spec_float) :
  fold_left np.maximum rest S754_nan = S754_nan.
Proof. induction rest as [| x rest IH]; [done |]. simpl. by rewrite maximum_nan_l. Qed.

(** A maximum that is not NaN bounds every element from above, and no
    element is NaN. *)
Lemma fold_maximum_bound (rest : list spec_float) (a : spec_float) :
  Float.is_nan (fold_left np.maximum rest a) = false ->
  Float.le a (fold_left np.maximum rest a) = true /\
  Forall (fun x => Float.le x (fold_left np.maximum rest a) = true) rest.
Proof.
  revert a. induction rest as [| x rest IH]; intros a Hc; simpl in *.
  - split; [by apply le_refl | constructor].
  - destruct (IH _ Hc) as [Hm Hrest].
    set (c := fold_left np.maximum rest (np.maximum a x)) in *.
    unfold np.maximum in Hm. rewrite ge_is_le in Hm.
    destruct (Float.le x a) eqn:Hxa; simpl in Hm.
    + split; [done |]. constructor; [| done]. by eapply le_trans.
    + destruct (Float.is_nan a) eqn:Ha.
      { by destruct a. }
      destruct (le_not_nan _ _ Hm) as [Hx _].
      split; [| by constructor].
      eapply le_trans; [| exact Hm]. by apply le_total.
Qed.

Lemma max_bound (a : list spec_float) (c : spec_float) :
  np.max a = Returns c -> Float.is_nan c = false ->
  Forall (fun x => Float.le x c = true) a.
Proof.
  destruct a as [| x rest]; [done |]. intros [= <-] Hc.
  destruct (fold_maximum_bound rest x Hc). by constructor.
Qed.

(** A NaN among the scores is the maximum. *)
Lemma max_nan (a : list spec_float) (c : spec_float) :
  np.max a = Returns c -> S754_nan ∈ a -> c = S754_nan.
Proof.
  intros Hmax Hin. destruct c; try done;
    (apply max_bound in Hmax; [| done]); rewrite Forall_forall in Hmax;
    by apply Hmax in Hin.
Qed.

(** [np.argmax] points at the element that [np.max] returns. *)
Lemma argmax_from_max (pre rest : list spec_float) (mp : spec_float)
    (max_ind : nat) :
  Float.is_nan mp = false ->
  (pre ++ rest) !! max_ind = Some mp ->
  (pre ++ rest) !!
    Z.to_nat (np.argmax_from rest (Z.of_nat (length pre)) mp (Z.of_nat max_ind))
  = Some (fold_left np.maximum rest mp).
Proof.
  revert pre mp max_ind.
  induction rest as [| x rest IH]; intros pre mp max_ind Hmp Hlook; simpl.
  - by rewrite Nat2Z.id.
  - assert (Hpre : pre ++ x :: rest = (pre ++ [x]) ++ rest)
      by (by rewrite <- app_assoc).
    assert (Hlen : Z.of_nat (length pre) + 1 = Z.of_nat (length (pre ++ [x])))
      by (rewrite length_app; simpl; lia).
    unfold np.maximum. rewrite ge_is_le, Hmp, orb_false_r.
    destruct (Float.le x mp) eqn:Hle.
    + rewrite Hpre, Hlen. apply IH; [done | by rewrite <- Hpre].
    + destruct (Float.is_nan x) eqn:Hx.
      * destruct x; try done. rewrite fold_maximum_nan, Nat2Z.id.
        by rewrite lookup_app_r, Nat.sub_diag.
      * rewrite Hpre, Hlen.
        apply (IH (pre ++ [x]) x (length pre) Hx).
        rewrite <- Hpre. by rewrite lookup_app_r, Nat.sub_diag.
Qed.

Lemma argmax_is_max (a : list spec_float) (c : spec_float) (i : Z) :
  np.max a = Returns c -> np.argmax a = Returns i ->
  0 <= i /\ a !! Z.to_nat i = Some c.
Proof.
  destruct a as [| x rest]; [done |]. intros [= <-] [= <-].
  destruct (Float.is_nan x) eqn:Hx.
  - destruct x; try done. by rewrite fold_maximum_nan.
  - split.
    + pose proof (argmax_from_bounds rest 1 x 0 ltac:(lia)). lia.
    + apply (argmax_from_max [x] rest x 0 Hx). done.
Qed.

(** ** What the pipeline reports for a region *)

Lemma py_index_lookup {A} (l : list A) (i : Z) (a : A) :
  0 <= i -> py_index l i = Returns a -> l !! Z.to_nat i = Some a.
Proof.
  intros Hi. unfold py_index.
  destruct (Z.ltb_spec i 0) as [? | _]; [lia |].
  destruct (Z.leb_spec 0 i) as [_ | ?]; [| lia].
  by destruct (l !! Z.to_nat i) as [a' |]; intros [= <-].
Qed.

Section RegionVerdict.
Context {CS : Type}.
Variable cv : cv2_backend.
Variable image : Image.
Variable model : Model CS.

(** The round of the loop for the region [r], in full. *)
Lemma detect_regions_round (r : Rect) (rest : list Rect)
  (acc ds : list Detection) (w w' : World CS) :
detect_regions cv image model (r :: rest) acc w = (Returns ds, w') ->
exists t batch s' scores c (w1 : World CS),
  preprocess_frame cv (crop image r) default_target_size = Returns t /\
  predict model (w_classifier w) t = (Returns batch, s') /\
  batch !! 0%nat = Some scores /\
  np.max scores = Returns c /\
  ((Float.ge c CONFIDENCE_THRESHOLD = false /\
    detect_regions cv image model rest acc w1 = (Returns ds, w')) \/
   (Float.ge c CONFIDENCE_THRESHOLD = true /\
    exists idx name,
      scores !! idx = Some c /\ CLASS_NAMES !! idx = Some name /\
      detect_regions cv image model rest
        (acc ++ [mkDetection r c name]) w1 = (Returns ds, w'))).
Proof.
destruct r as [[[x y] w0] h]. simpl. unfold bind, lift, model_predict.
destruct (preprocess_frame cv _ _) as [t |] eqn:Ht; [| discriminate].
destruct (predict model _ t) as [[batch |] s'] eqn:Hp; [| discriminate].
destruct (py_index batch 0) as [scores |] eqn:Hb; [| discriminate].
destruct (np.max scores) as [c |] eqn:Hmax; [| discriminate].
apply py_index_lookup in Hb; [| lia].
intros H. exists t, batch, s', scores, c. eexists.
split_and!; try done.
destruct (Float.ge c CONFIDENCE_THRESHOLD) eqn:Hge.
- destruct (np.argmax scores) as [i |] eqn:Harg; [| discriminate].
  destruct (py_index CLASS_NAMES i) as [name |] eqn:Hname; [| discriminate].
  destruct (argmax_is_max scores c i Hmax Harg) as [Hi Hlook].
  apply py_index_lookup in Hname; [| done].
  right. split; [done |]. exists (Z.to_nat i), name. split_and!; try done.
- left. split; [done |]. exact H.
Qed.

Lemma detect_regions_top_score (regions : list Rect)
  (acc ds : list Detection) (w w' : World CS) :
detect_regions cv image model regions acc w = (Returns ds, w') ->
Forall (reports_top_score cv image model) acc ->
Forall (reports_top_score cv image model) ds.
Proof.
revert acc w. induction regions as [| r rest IH]; intros acc w H Hacc.
- by injection H as <- _.
- apply detect_regions_round in H
    as (t & batch & s' & scores & c & w1 & Ht & Hp & Hb & Hmax & H).
  destruct H as [[_ H] | (Hge & idx & name & Hc & Hname & H)];
    [by eapply IH |].
  eapply IH; [exact H |]. apply Forall_app. split; [done |].
  constructor; [| constructor].
  exists t, (w_classifier w), s', batch, scores, idx.
  split_and!; try done. simpl.
  apply (max_bound scores c Hmax).
  apply ge_threshold_iff in Hge. by destruct c as [| [|] | | [|]].
Qed.

(** X1. Every detection reports the top score of the classifier for the
  crop of its box: the confidence is an element of the score vector that
  the classifier returned for that crop, every score of the vector is
  [<=] it, and the class is the name at the index of that element. *)
Theorem detection_reports_top_score (ds : list Detection) (w w' : World CS) :
detect_objects cv image model w = (Returns ds, w') ->
forall d, d ∈ ds -> reports_top_score cv image model d.
Proof.
unfold detect_objects, bind, lift, emit.
destruct (get_region_proposals cv image) as [regions |]; [| discriminate].
intros H. apply detect_regions_top_score in H; [| constructor].
by rewrite Forall_forall in H.
Qed.

Lemma detect_regions_never_confident (regions : list Rect)
  (acc ds : list Detection) (w w' : World CS) :
never_confident model ->
detect_regions cv image model regions acc w = (Returns ds, w') -> ds = acc.
Proof.
intros Hquiet. revert acc w.
induction regions as [| r rest IH]; intros acc w H.
- by injection H as <- _.
- apply detect_regions_round in H
    as (t & batch & s' & scores & c & w1 & Ht & Hp & Hb & Hmax & H).
  destruct H as [[_ H] | (Hge & _)]; [by eapply IH |].
  by rewrite (Hquiet _ _ _ _ _ _ Hp Hb Hmax) in Hge.
Qed.

(** X2. If no answer of the classifier has a top score that compares [>=]
  to 0.5, [detect_objects] returns the empty list. *)
Theorem never_confident_detects_nothing (ds : list Detection)
  (w w' : World CS) :
never_confident model ->
detect_objects cv image model w = (Returns ds, w') -> ds = [].
Proof.
intros Hquiet. unfold detect_objects, bind, lift, emit.
destruct (get_region_proposals cv image) as [regions |]; [| discriminate].
by apply detect_regions_never_confident.
Qed.

Lemma detect_regions_complete
  (f : Tensor -> outcome (list (list spec_float))) (regions : list Rect)
  (acc ds : list Detection) (w w' : World CS) :
answers_by model f ->
detect_regions cv image model regions acc w = (Returns ds, w') ->
exists new, ds = acc ++ new /\
  forall r c, r ∈ regions -> qualifies cv image f r c ->
    exists d, d ∈ new /\ det_box d = r /\ det_confidence d = c.
Proof.
intros Hf. revert acc w.
induction regions as [| r rest IH]; intros acc w H.
- injection H as <- _. exists []. rewrite app_nil_r. split; [done |].
  intros r c Hr. by apply elem_of_nil in Hr.
- apply detect_regions_round in H
    as (t & batch & s' & scores & c & w1 & Ht & Hp & Hb & Hmax & H).
  assert (Hft : f t = Returns batch).
  { rewrite <- (Hf (w_classifier w) t). by rewrite Hp. }
  assert (Hsame : forall c', qualifies cv image f r c' ->
            c' = c /\ Float.ge c CONFIDENCE_THRESHOLD = true).
  { intros c' (t' & batch' & scores' & Ht' & Hft' & Hb' & Hmax' & Hge').
    rewrite Ht in Ht'. injection Ht' as <-.
    rewrite Hft in Hft'. injection Hft' as <-.
    rewrite Hb in Hb'. injection Hb' as <-.
    rewrite Hmax in Hmax'. by injection Hmax' as <-. }
  destruct H as [[Hge H] | (Hge & idx & name & _ & _ & H)].
  + apply IH in H as (new & -> & Hnew). exists new. split; [done |].
    intros r0 c0 Hr0 Hq. apply elem_of_cons in Hr0 as [-> | Hr0].
    * destruct (Hsame c0 Hq) as [_ Hge']. congruence.
    * by apply Hnew.
  + apply IH in H as (new & -> & Hnew).
    exists (mkDetection r c name :: new).
    split; [by rewrite <- app_assoc |].
    intros r0 c0 Hr0 Hq. apply elem_of_cons in Hr0 as [-> | Hr0].
    * destruct (Hsame c0 Hq) as [-> _].
      eexists. split; [apply list_elem_of_here | done].
    * destruct (Hnew r0 c0 Hr0 Hq) as (d & Hd & Hbox & Hconf).
      exists d. split; [by apply list_elem_of_further | done].
Qed.

(** X3. With a classifier whose answer depends on its input alone, no
  qualifying region is dropped: every proposed region whose top score
  reaches 0.5 has a detection with that box and that confidence. *)
Theorem qualifying_region_is_detected
  (f : Tensor -> outcome (list (list spec_float)))
  (regions : list Rect) (ds : list Detection) (w w' : World CS) :
answers_by model f ->
get_region_proposals cv image = Returns regions ->
detect_objects cv image model w = (Returns ds, w') ->
forall r c, r ∈ regions -> qualifies cv image f r c ->
  exists d, d ∈ ds /\ det_box d = r /\ det_confidence d = c.
Proof.
intros Hf Hreg. unfold detect_objects, bind, lift, emit. rewrite Hreg.
intros H. apply (detect_regions_complete f) in H as (new & -> & Hnew);
  [| done].
exact Hnew.
Qed.

End RegionVerdict.

Lemma detection_reports_top_score_witness :
  reports_top_score Stub.cv Stub.frame Stub.model stub_detection.
Proof.
  apply (detection_reports_top_score Stub.cv Stub.frame Stub.model
           [stub_detection] Stub.world stub_after_detection).
  - reflexivity.
  - apply list_elem_of_here.
Defined.

Lemma stub_uniform_never_confident : never_confident Stub.uniform.
Proof.
  intros s t batch s' scores c [= <- _] [= <-] [= <-]. vm_compute. reflexivity.
Qed.

Lemma never_confident_detects_nothing_witness :
  never_confident Stub.uniform /\
  detect_objects Stub.cv Stub.frame Stub.uniform Stub.world =
    (Returns [], snd (detect_objects Stub.cv Stub.frame Stub.uniform Stub.world)) /\
  @nil Detection = [].
Proof.
  split; [exact stub_uniform_never_confident |].
  split; [reflexivity |].
  apply (never_confident_detects_nothing Stub.cv Stub.frame Stub.uniform []
           Stub.world
           (snd (detect_objects Stub.cv Stub.frame Stub.uniform Stub.world))
           stub_uniform_never_confident).
  reflexivity.
Defined.

Section NanScores.
Context {CS : Type}.
Variable cv : cv2_backend.
Variable image : Image.
Variable model : Model CS.

(** X4. A NaN among the scores suppresses the detection, whatever the
  other scores are: if every answer of the classifier holds a NaN,
  [detect_objects] returns the empty list. *)
Theorem nan_scores_detect_nothing (ds : list Detection) (w w' : World CS) :
(forall s t batch s' scores,
   predict model s t = (Returns batch, s') ->
   batch !! 0%nat = Some scores -> S754_nan ∈ scores) ->
detect_objects cv image model w = (Returns ds, w') -> ds = [].
Proof.
intros Hnan. unfold detect_objects, bind, lift, emit.
destruct (get_region_proposals cv image) as [regions |]; [| discriminate].
apply detect_regions_never_confident.
intros s t batch s' scores c Hp Hb Hmax.
by rewrite (max_nan scores c Hmax (Hnan _ _ _ _ _ Hp Hb)).
Qed.

End NanScores.

Lemma nan_scores_detect_nothing_witness :
  detect_objects Stub.cv Stub.frame nan_model Stub.world =
    (Returns [], snd (detect_objects Stub.cv Stub.frame nan_model Stub.world)) /\
  @nil Detection = [].
Proof.
  split; [reflexivity |].
  apply (nan_scores_detect_nothing Stub.cv Stub.frame nan_model []
           Stub.world
           (snd (detect_objects Stub.cv Stub.frame nan_model Stub.world))).
  - intros s t batch s' scores [= <- _] [= <-].
    apply list_elem_of_further, list_elem_of_here.
  - reflexivity.
Defined.

Lemma qualifying_region_is_detected_witness :
  exists d, d ∈ [stub_detection] /\
    det_box d = (0, 0, 60, 60) /\ det_confidence d = Float.lit 9 10.
Proof.
  apply (qualifying_region_is_detected Stub.cv Stub.frame Stub.model
           (fun _ => Returns [Stub.scores]) [(0, 0, 60, 60)]
           [stub_detection] Stub.world stub_after_detection).
  - intros s t. reflexivity.
  - reflexivity.
  - reflexivity.
  - apply list_elem_of_here.
  - eexists _, [Stub.scores], Stub.scores.
    split_and!; [reflexivity | reflexivity | reflexivity | | ].
    + vm_compute. reflexivity.
    + vm_compute. reflexivity.
Defined.

(** ** Crops and the regions inside the frame *)

Lemma slice_in_range {A} (lo hi : Z) (a : list A) :
  0 <= lo <= hi -> hi <= Z.of_nat (length a) ->
  np.slice lo hi a = take (Z.to_nat (hi - lo)) (drop (Z.to_nat lo) a) /\
  length (np.slice lo hi a) = Z.to_nat (hi - lo).
Proof.
  intros Hlo Hhi. unfold np.slice, np.clip_index.
  destruct (Z.ltb_spec lo 0) as [? | _]; [lia |].
  destruct (Z.ltb_spec hi 0) as [? | _]; [lia |].
  rewrite !Z.min_l by lia. split; [done |].
  rewrite length_take, length_drop. lia.
Qed.

(** The crop [image[y:y+h, x:x+w]] of a frame by a rectangle inside it is
    again a frame, of [h] rows and [w] columns. *)
Lemma crop_frame (image : Image) (x y w h : Z) :
  is_frame image -> inside_frame image (x, y, w, h) ->
  is_frame (crop image (x, y, w, h)) /\
  length (crop image (x, y, w, h)) = Z.to_nat h /\
  Forall (fun row => length row = Z.to_nat w) (crop image (x, y, w, h)).
Proof.
  intros (Hne & (W & HW & Hrows) & Hpx) (Hx & Hy & Hw & Hh & Hxw & Hyh).
  assert (HhdW : length (hd [] image) = W).
  { destruct image as [| row0 image']; [done |]. by inversion Hrows. }
  rewrite HhdW in Hxw.
  destruct (slice_in_range y (y + h) image ltac:(lia) Hyh) as [Hrs Hlen].
  replace (y + h - y) with h in * by lia.
  assert (Hsub : Forall (fun row => length row = W /\ Forall bgr_pixel row)
                   (np.slice y (y + h) image)).
  { rewrite Hrs. apply Forall_take, Forall_drop.
    rewrite Forall_forall in Hrows, Hpx. apply Forall_forall.
    intros row Hrow. split; [by apply Hrows | by apply Hpx]. }
  assert (Hcols : Forall (fun row => length row = Z.to_nat w /\
                                     Forall bgr_pixel row)
                    (crop image (x, y, w, h))).
  { unfold crop. apply Forall_fmap. eapply Forall_impl; [exact Hsub |].
    intros row [Hrow Hgood]. simpl.
    destruct (slice_in_range x (x + w) row ltac:(lia) ltac:(lia))
      as [Hcs Hclen].
    replace (x + w - x) with w in * by lia.
    split; [done |]. rewrite Hcs. by apply Forall_take, Forall_drop. }
  assert (Hcroplen : length (crop image (x, y, w, h)) = Z.to_nat h).
  { unfold crop. by rewrite length_map. }
  split; [unfold is_frame; split_and! | split].
  - intros Hnil. rewrite Hnil in Hcroplen. simpl in Hcroplen. lia.
  - exists (Z.to_nat w). split; [lia |].
    eapply Forall_impl; [exact Hcols |]. by intros row [].
  - eapply Forall_impl; [exact Hcols |]. by intros row [].
  - done.
  - eapply Forall_impl; [exact Hcols |]. by intros row [].
Qed.

Lemma Forall_repeat_same {A} (P : A -> Prop) (x : A) (n : nat) :
  P x -> Forall P (repeat x n).
Proof. intros Hx. induction n; simpl; by constructor. Qed.

Lemma stub_frame_is_frame : is_frame Stub.frame.
Proof.
  unfold Stub.frame. split_and!.
  - discriminate.
  - exists 64%nat. split; [lia |]. apply Forall_repeat_same, repeat_length.
  - apply Forall_repeat_same, Forall_repeat_same.
    unfold bgr_pixel, uint8. split; [done |]. repeat constructor; lia.
Qed.

Section PipelineInFrame.
Context {CS : Type}.
Variable cv : cv2_backend.
Variable image : Image.
Variable model : Model CS.

(** X5. The pipeline raises nothing on a frame whose proposed regions lie
  inside it: given the contract of [cv2.resize] and a classifier with
  five scores, [detect_objects] returns a list of detections. *)
Theorem detect_objects_returns_in_frame (regions : list Rect) (w : World CS) :
resize_contract cv default_target_size ->
five_scores model ->
is_frame image ->
get_region_proposals cv image = Returns regions ->
(forall r, r ∈ regions -> inside_frame image r) ->
exists ds w', detect_objects cv image model w = (Returns ds, w').
Proof.
intros Hresize Hmodel Hframe Hreg Hin.
apply (detect_objects_returns cv image model Hmodel regions w Hreg).
intros [[[x y] w0] h] Hr.
destruct (crop_frame image x y w0 h Hframe (Hin _ Hr)) as [Hcrop _].
unfold preprocess_frame.
destruct (Hresize _ Hcrop) as (out & -> & _). by eexists.
Qed.

End PipelineInFrame.

Lemma detect_objects_returns_in_frame_witness :
  exists ds w',
    detect_objects Stub.cv Stub.frame Stub.model Stub.world = (Returns ds, w').
Proof.
  apply (detect_objects_returns_in_frame Stub.cv Stub.frame Stub.model
           [(0, 0, 60, 60)] Stub.world
           (stub_resize_contract default_target_size)).
  - intros s t. exists [Stub.scores], Stub.scores, (S s).
    split_and!; reflexivity.
  - exact stub_frame_is_frame.
  - reflexivity.
  - intros r Hr. apply list_elem_of_singleton in Hr as ->.
    unfold inside_frame. simpl. lia.
Defined.

(** ** More scores than class names *)

Lemma py_index_beyond {A} (l : list A) (i : Z) :
  Z.of_nat (length l) <= i ->
  py_index l i = Raises (Exn "IndexError" "index out of range").
Proof.
  intros Hi. unfold py_index.
  destruct (Z.ltb_spec i 0) as [? | _]; [lia |].
  destruct (Z.leb_spec 0 i) as [_ | ?]; [| lia].
  destruct (l !! Z.to_nat i) as [a |] eqn:Hl; [| done].
  apply lookup_lt_Some in Hl. lia.
Qed.

Section MoreScores.
Context {CS : Type}.
Variable cv : cv2_backend.
Variable image : Image.
Variable model : Model CS.

(** X6. [CLASS_NAMES] has five names and the pipeline does not check the
  length of the score vector: if the classifier answers with a vector
  whose top score reaches 0.5 and stands at index 5 or beyond, then
  [detect_objects] raises IndexError at the first region, and returns no
  detection. *)
Theorem top_score_beyond_names_raises (v : list spec_float) (c : spec_float)
  (i : Z) (r : Rect) (rest : list Rect) (t : Tensor) (w : World CS) :
always_answers model v ->
np.max v = Returns c -> Float.ge c CONFIDENCE_THRESHOLD = true ->
np.argmax v = Returns i -> 5 <= i ->
get_region_proposals cv image = Returns (r :: rest) ->
preprocess_frame cv (crop image r) default_target_size = Returns t ->
fst (detect_objects cv image model w) =
  Raises (Exn "IndexError" "index out of range").
Proof.
intros Hmodel Hmax Hge Harg Hi Hreg Ht.
unfold detect_objects, bind, lift, emit. rewrite Hreg.
destruct r as [[[x y] w0] h]. simpl. unfold bind, lift, model_predict.
simpl in Ht. rewrite Ht. simpl.
destruct (Hmodel (w_classifier w) t) as (batch & s' & -> & Hrow).
rewrite (py_index_first _ _ Hrow), Hmax. cbv beta iota.
rewrite Hge, Harg. cbv beta iota.
by rewrite (py_index_beyond CLASS_NAMES i).
Qed.

End MoreScores.

Lemma top_score_beyond_names_raises_witness :
  fst (detect_objects Stub.cv Stub.frame six_class_model Stub.world) =
    Raises (Exn "IndexError" "index out of range").
Proof.
  eapply (top_score_beyond_names_raises Stub.cv Stub.frame six_class_model
            six_scores (Float.lit 9 10) 5 (0, 0, 60, 60) []).
  - intros s t. exists [six_scores], (S s). split; reflexivity.
  - vm_compute. reflexivity.
  - vm_compute. reflexivity.
  - vm_compute. reflexivity.
  - lia.
  - reflexivity.
  - reflexivity.
Defined.

(** ** The region proposer keeps every large contour *)

Section ProposalsExact.
Variable cv : cv2_backend.

(** X7. The proposals are the bounding rectangles of the external contours
  of the thresholded, blurred, grayscale frame that exceed 50 in both
  dimensions, in the order of the contours: no such rectangle is
  dropped, and there are no more proposals than contours. *)
Theorem region_proposals_keep_large_contours (image : Image) (gray blur thresh : Gray)
  (level : spec_float) (contours : list Contour) (hierarchy : list (list Z)) :
cvtColor_gray cv image cv2.COLOR_BGR2GRAY = Returns gray ->
GaussianBlur cv gray (5, 5) 0 = Returns blur ->
threshold cv blur 0 255 (cv2.THRESH_BINARY + cv2.THRESH_OTSU)
  = Returns (level, thresh) ->
findContours cv thresh cv2.RETR_EXTERNAL cv2.CHAIN_APPROX_SIMPLE
  = Returns (contours, hierarchy) ->
exists regions,
  get_region_proposals cv image = Returns regions /\
  sublist regions (map (boundingRect cv) contours) /\
  (length regions <= length contours)%nat /\
  forall contour x y w h,
    contour ∈ contours -> boundingRect cv contour = (x, y, w, h) ->
    ((x, y, w, h) ∈ regions <-> w > 50 /\ h > 50).
Proof.
intros Hgray Hblur Hthresh Hcont.
exists (filter (fun r => big_enough r = true) (map (boundingRect cv) contours)).
split_and!.
- unfold get_region_proposals. rewrite Hgray. simpl.
  rewrite Hblur. simpl. rewrite Hthresh. simpl. rewrite Hcont. simpl.
  by rewrite collect_regions_filter.
- apply sublist_filter.
- etransitivity; [apply length_filter |]. by rewrite length_map.
- intros contour x y w h Hin Hrect.
  rewrite list_elem_of_filter. unfold big_enough.
  rewrite andb_true_iff, !Z.ltb_lt. split.
  + intros [[Hw Hh] _]. lia.
  + intros [Hw Hh]. split; [lia |].
    rewrite <- Hrect. by apply list_elem_of_fmap_2.
Qed.

End ProposalsExact.

Lemma region_proposals_keep_large_contours_witness :
  exists regions,
    get_region_proposals Stub.cv Stub.frame = Returns regions /\
    sublist regions (map (boundingRect Stub.cv) Stub.contours) /\
    (length regions <= length Stub.contours)%nat /\
    forall contour x y w h,
      contour ∈ Stub.contours ->
      boundingRect Stub.cv contour = (x, y, w, h) ->
      ((x, y, w, h) ∈ regions <-> w > 50 /\ h > 50).
Proof.
  apply (region_proposals_keep_large_contours Stub.cv Stub.frame
           (map (map (fun px => hd 0 px)) Stub.frame)
           (map (map (fun px => hd 0 px)) Stub.frame)
           (map (map (fun px => hd 0 px)) Stub.frame)
           Float.zero Stub.contours []); reflexivity.
Defined.

(** ** The cached loader *)

Section LoadOnce.
Context {CS : Type}.


End LoadOnce.

(** ** The upload page *)

Section UploadPage.
Context {CS : Type}.
Variable cv : cv2_backend.

Lemma for_each_emit {A} (f : A -> Event) (l : list A) (w : World CS) :
for_each l (fun a => emit (f a)) w = (Returns tt, with_events w (map f l)).
Proof.
revert w. induction l as [| a l IH]; intros w; simpl.
- by rewrite with_events_nil.
- unfold bind. rewrite emit_run, IH. by rewrite with_events_app.
Qed.

Lemma lift_returns {A} (o : outcome A) (w w' : World CS) (a : A) :
lift o w = (Returns a, w') -> o = Returns a /\ w' = w.
Proof. by intros [= -> <-]. Qed.

(** X9. A run of the upload page that returns, with the model at hand, a
  file uploaded and the button clicked: the file has been decoded and
  converted from RGB to BGR; the effects are the title, the original
  image, one call of [detect_objects] on the BGR frame, the drawing calls
  for its detections on a copy, the copy converted back to RGB as the
  result image, the heading, and one line ["- Found <class> with
  <confidence, two decimals> confidence"] for each detection, in order.
  The BGR frame itself stays in the store as decoded. *)
Theorem upload_page_shows_detections (inp : Inputs) (file : string)
  (model : Model CS) (w w' : World CS) :
model_available w model ->
uploaded_file inp = Some file -> detect_clicked inp = true ->
page_upload cv inp w = (Returns tt, w') ->
exists (img bgr rgb : Image) (ds : list Detection) (image_cv out : loc),
  Image_open cv file = Returns img /\
  cvtColor cv img cv2.COLOR_RGB2BGR = Returns bgr /\
  (exists w2 w3, detect_objects cv bgr model w2 = (Returns ds, w3)) /\
  cvtColor cv (paint cv bgr ds) cv2.COLOR_BGR2RGB = Returns rgb /\
  w_events w' = w_events w ++
    [EvStTitle "Food Image Detection"; EvStImage img "Original Image";
     EvDetect] ++
    flat_map (overlay_calls cv out) ds ++
    [EvStImage rgb "Detection Result"; EvStSubheader "Detection Details:"] ++
    map (fun d => EvStWrite
           ("- Found " +:+ det_class d +:+ " with "
              +:+ Float.format_2f (det_confidence d) +:+ " confidence")) ds /\
  image_cv <> out /\
  w_store w' !! image_cv = Some bgr /\
  w_store w' !! out = Some (paint cv bgr ds).
Proof.
intros Hav Hfile Hclick Hrun. unfold page_upload in Hrun.
rewrite Hfile, Hclick in Hrun.
apply bind_returns in Hrun as ([] & w0 & H0 & Hrun).
rewrite emit_run in H0. injection H0 as <-.
apply bind_returns in Hrun as (m & w1 & H1 & Hrun).
destruct (load_available model
            (with_events w [EvStTitle "Food Image Detection"]) Hav)
  as (w1' & Hload & Hev1 & _).
rewrite Hload in H1. injection H1 as <- <-.
simpl in Hev1. rewrite app_nil_r in Hev1.
apply bind_returns in Hrun as (img & w2 & H2 & Hrun).
apply lift_returns in H2 as [Himg ->].
apply bind_returns in Hrun as (bgr & w3 & H3 & Hrun).
apply lift_returns in H3 as [Hbgr ->].
apply bind_returns in Hrun as (image_cv & w4 & H4 & Hrun).
injection H4 as <- <-.
apply bind_returns in Hrun as ([] & w5 & H5 & Hrun).
rewrite emit_run in H5. injection H5 as <-.
apply bind_returns in Hrun as (px & w6 & H6 & Hrun).
injection H6 as <- <-. simpl in Hrun.
rewrite lookup_total_insert_eq in Hrun.
set (image_cv := fresh (dom (w_store w1'))) in *.
apply bind_returns in Hrun as (ds & w7 & H7 & Hrun).
pose proof (detect_objects_extends _ _ _ _ _ _ H7) as (Hev7 & _ & _).
pose proof (detect_objects_keeps_store _ _ _ _ _ _ H7) as Hst7.
simpl in Hev7, Hst7.
apply bind_returns in Hrun as (out & w8 & H8 & Hrun).
rewrite draw_detection_boxes_run in H8. injection H8 as <- <-.
apply bind_returns in Hrun as (opx & w9 & H9 & Hrun).
injection H9 as <- <-. simpl in Hrun.
rewrite lookup_total_insert_eq in Hrun.
assert (Hbox : w_store w7 !!! image_cv = bgr).
{ rewrite Hst7. apply lookup_total_insert_eq. }
rewrite Hbox in Hrun.
apply bind_returns in Hrun as (rgb & w10 & H10 & Hrun).
apply lift_returns in H10 as [Hrgb ->].
apply bind_returns in Hrun as ([] & w11 & H11 & Hrun).
rewrite emit_run in H11. injection H11 as <-.
apply bind_returns in Hrun as ([] & w12 & H12 & Hrun).
rewrite emit_run, with_events_app in H12. injection H12 as <-.
rewrite (for_each_emit (fun d => EvStWrite (detail_line d))) in Hrun.
rewrite with_events_app in Hrun. injection Hrun as <-.
set (out := fresh (dom (w_store w7))) in *.
assert (Hfresh : w_store w7 !! out = None).
{ apply not_elem_of_dom, is_fresh. }
assert (Hcv : w_store w7 !! image_cv = Some bgr).
{ rewrite Hst7. apply lookup_insert_eq. }
assert (Hne : image_cv <> out) by congruence.
exists img, bgr, rgb, ds, image_cv, out.
split_and!; try done.
- eauto.
- simpl. rewrite Hev7, Hev1. simpl. rewrite <- !app_assoc. reflexivity.
- simpl. by rewrite lookup_insert_ne.
- simpl. by rewrite lookup_insert_eq.
Qed.

End UploadPage.

Lemma upload_page_shows_detections_witness :
  exists (img bgr rgb : Image) (ds : list Detection) (image_cv out : loc),
    Image_open Stub.cv "upload.jpg" = Returns img /\
    cvtColor Stub.cv img cv2.COLOR_RGB2BGR = Returns bgr /\
    (exists w2 w3, detect_objects Stub.cv bgr Stub.model w2 = (Returns ds, w3)) /\
    cvtColor Stub.cv (paint Stub.cv bgr ds) cv2.COLOR_BGR2RGB = Returns rgb /\
    w_events (snd (page_upload Stub.cv upload_inputs Stub.world)) =
      w_events Stub.world ++
      [EvStTitle "Food Image Detection"; EvStImage img "Original Image";
       EvDetect] ++
      flat_map (overlay_calls Stub.cv out) ds ++
      [EvStImage rgb "Detection Result"; EvStSubheader "Detection Details:"] ++
      map (fun d => EvStWrite
             ("- Found " +:+ det_class d +:+ " with "
                +:+ Float.format_2f (det_confidence d) +:+ " confidence")) ds /\
    image_cv <> out /\
    w_store (snd (page_upload Stub.cv upload_inputs Stub.world)) !! image_cv
      = Some bgr /\
    w_store (snd (page_upload Stub.cv upload_inputs Stub.world)) !! out
      = Some (paint Stub.cv bgr ds).
Proof.
assert (Hfst : fst (page_upload Stub.cv upload_inputs Stub.world) = Returns tt)
  by reflexivity.
destruct (page_upload Stub.cv upload_inputs Stub.world) as [o w'] eqn:Hrun.
simpl in Hfst. subst o. cbn [snd].
apply (upload_page_shows_detections Stub.cv upload_inputs "upload.jpg"
         Stub.model Stub.world w').
- right. split; reflexivity.
- reflexivity.
- reflexivity.
- exact Hrun.
Defined.

(** The lines that the stub run of the upload page writes. *)
Lemma stub_upload_lines :
  List.filter (fun ev => match ev with EvStWrite _ => true | _ => false end)
    (w_events (snd (page_upload Stub.cv upload_inputs Stub.world)))
  = [EvStWrite "- Found karbohidrat with 0.90 confidence"].
Proof. reflexivity. Qed.

(** ** Which pages detect, and which use the camera *)

Section QuietPages.
Context {CS : Type}.
Variable cv : cv2_backend.

Lemma quiet_page_home : quiet 0 (page_home (CS := CS)).
Proof.
unfold page_home.
apply (quiet_bind 0 0); [quiet_event | intros _].
apply (quiet_bind 0 0); [quiet_event | intros _].
quiet_event.
Qed.

Lemma quiet_upload_clicked (image_cv : loc) (model : Model CS) :
quiet 1
  (bind (read_array image_cv) (fun px =>
   bind (detect_objects cv px model) (fun detections =>
   bind (draw_detection_boxes cv image_cv detections) (fun result_image =>
   bind (read_array result_image) (fun result_px =>
   bind (lift (cvtColor cv result_px cv2.COLOR_BGR2RGB)) (fun result_rgb =>
   bind (emit (EvStImage result_rgb "Detection Result")) (fun _ =>
   bind (emit (EvStSubheader "Detection Details:")) (fun _ =>
   for_each detections
     (fun det => emit (EvStWrite (detail_line det))))))))))).
Proof.
apply (quiet_bind 0 1); [apply quiet_read_array | intros px].
apply (quiet_bind 1 0); [apply quiet_detect | intros ds].
apply (quiet_bind 0 0); [apply quiet_draw | intros out].
apply (quiet_bind 0 0); [apply quiet_read_array | intros opx].
apply (quiet_bind 0 0); [apply quiet_lift | intros rgb].
apply (quiet_bind 0 0); [quiet_event | intros _].
apply (quiet_bind 0 0); [quiet_event | intros _].
apply quiet_for_each. intros det. quiet_event.
Qed.

Lemma quiet_page_upload (inp : Inputs) :
quiet (CS := CS) 1 (page_upload cv inp) /\
(uploaded_file inp = None \/ detect_clicked inp = false ->
 quiet (CS := CS) 0 (page_upload cv inp)).
Proof.
unfold page_upload. split.
- apply (quiet_bind 0 1); [quiet_event | intros _].
  apply (quiet_bind 0 1); [apply quiet_load | intros [model |]].
  2: { apply (quiet_weaken 0); [lia | quiet_event]. }
  destruct (uploaded_file inp) as [file |].
  2: { apply (quiet_weaken 0); [lia | apply quiet_ret]. }
  apply (quiet_bind 0 1); [apply quiet_lift | intros img].
  apply (quiet_bind 0 1); [apply quiet_lift | intros bgr].
  apply (quiet_bind 0 1); [apply quiet_new_array | intros image_cv].
  apply (quiet_bind 0 1); [quiet_event | intros _].
  destruct (detect_clicked inp); [apply quiet_upload_clicked |].
  apply (quiet_weaken 0); [lia | apply quiet_ret].
- intros Hno.
  apply (quiet_bind 0 0); [quiet_event | intros _].
  apply (quiet_bind 0 0); [apply quiet_load | intros [model |]].
  2: { quiet_event. }
  destruct (uploaded_file inp) as [file |]; [| apply quiet_ret].
  destruct Hno as [Hno | Hno]; [done |]. rewrite Hno.
  apply (quiet_bind 0 0); [apply quiet_lift | intros img].
  apply (quiet_bind 0 0); [apply quiet_lift | intros bgr].
  apply (quiet_bind 0 0); [apply quiet_new_array | intros image_cv].
  apply (quiet_bind 0 0); [quiet_event | intros _].
  apply quiet_ret.
Qed.

(** X10. Only the live page uses the camera, and only a clicked upload
  detects: for every other selection a run of the script, whatever its
  outcome, adds no camera effect and leaves the device as it is; it calls
  [detect_objects] at most once, and not at all unless the page is
  "Upload Image" with a file uploaded and the button clicked. *)
Theorem only_live_page_uses_camera (inp : Inputs) :
selected inp <> "Live Camera" ->
quiet (CS := CS) 1 (script cv inp) /\
(selected inp <> "Upload Image" \/ uploaded_file inp = None \/
 detect_clicked inp = false -> quiet (CS := CS) 0 (script cv inp)).
Proof.
intros Hlive. apply String.eqb_neq in Hlive. unfold script. rewrite Hlive.
destruct (String.eqb_spec (selected inp) "Home") as [Hhome | Hhome].
{ split; [apply (quiet_weaken 0); [lia |] |]; intros; apply quiet_page_home. }
destruct (String.eqb_spec (selected inp) "Upload Image") as [Hup | Hup].
- destruct (quiet_page_upload inp) as [H1 H0]. split; [done |].
  intros [Hno | Hno]; [done | by apply H0].
- split; [apply (quiet_weaken 0); [lia |] |]; intros; apply quiet_ret.
Qed.

End QuietPages.

Lemma only_live_page_uses_camera_witness :
  quiet (CS := nat) 1 (script Stub.cv upload_inputs) /\
  (selected upload_inputs <> "Upload Image" \/
   uploaded_file upload_inputs = None \/
   detect_clicked upload_inputs = false ->
   quiet (CS := nat) 0 (script Stub.cv upload_inputs)).
Proof.
  apply (only_live_page_uses_camera Stub.cv upload_inputs). discriminate.
Defined.
